(** * particular: an event-driven simulator of a gas in two urns joined by a gated bridge

    Shallow embedding of [src/simulation.cpp] (class [Simulation]).

    Numeric model.  A C++ [double] is read as a real number: rounding,
    overflow and NaN are idealised away, the literal [PI] of the source is
    the real number pi, and [cos], [sin], [sqrt], [atan2], [fmod] are the
    exact functions.  Division is Rocq's total division, for which
    [x / 0 = 0]; every place where the source can divide by zero is marked,
    together with the reason why the IEEE result (an infinity or a NaN)
    takes the same branch as [0] does here.  The two divisions of
    [get_current_position] are checked instead: the function has no result
    when a divisor is zero.

    Integers.  Particle indices are [unsigned long] in the source and [nat]
    here (they only index vectors).  Counters and flags are [Z]; the
    [unsigned long] counter [in_left] wraps modulo 2^64.

    Effects.  The object is a record that is passed and returned.  The random
    device is a stream [unif_real : nat -> R] read at [rng_state].  Loops
    whose number of iterations is not bounded by the data (rejection
    sampling, the retry of the planner, the do-while of the explosion, the
    snapshot loop) take fuel and return [None] when it runs out.  Printing,
    the debug log and the result files are left out. *)

From Stdlib Require Import Reals Lra Lia List ZArith Bool Psatz Sorted Permutation.
Import ListNotations.
Open Scope R_scope.

(** ** Doubles *)

Module Double.

Definition PI : R := Rtrigo1.PI.
Definition EPS : R := 1e-14.

Definition ltb (x y : R) : bool := if Rlt_dec x y then true else false.
Definition leb (x y : R) : bool := if Rle_dec x y then true else false.
Definition eqb (x y : R) : bool := if Req_dec_T x y then true else false.

(** [std::fabs], [std::abs] on doubles. *)
Definition fabs (x : R) : R := Rabs x.

(** Rounding toward zero, as the conversion of a [double] to an integer and
    as the quotient inside [fmod]. *)
Definition trunc (x : R) : Z :=
  if Rle_dec 0 x then Int_part x else (- Int_part (- x))%Z.

(** C's [fmod x y]: [x - n * y] where [n] is [x / y] rounded toward zero. *)
Definition fmod (x y : R) : R := x - IZR (trunc (x / y)) * y.

(** C's [atan2 y x], the angle of the point [(x, y)] in (-pi, pi]. *)
Definition atan2 (y x : R) : R :=
  if Rlt_dec 0 x then atan (y / x)
  else if Rlt_dec x 0 then
         (if Rle_dec 0 y then atan (y / x) + PI else atan (y / x) - PI)
  else if Rlt_dec 0 y then PI / 2
  else if Rlt_dec y 0 then - PI / 2
  else 0.

End Double.

Import Double.

Declare Scope dbl_scope.
Delimit Scope dbl_scope with dbl.
Notation "x <? y" := (ltb x y) (at level 70, no associativity) : dbl_scope.
Notation "x <=? y" := (leb x y) (at level 70, no associativity) : dbl_scope.
Notation "x >? y" := (ltb y x) (at level 70, no associativity) : dbl_scope.
Notation "x >=? y" := (leb y x) (at level 70, no associativity) : dbl_scope.
Notation "x =? y" := (eqb x y) (at level 70, no associativity) : dbl_scope.
Open Scope dbl_scope.

(** ** The template [sgn]

    [template<typename T> int sgn(T val) { return (T(0) < val) - (val < T(0)); }]
    The source instantiates it at [double], at [int] and, in [update], at
    [std::vector<double>], where [T(0)] is the vector of length 0 and [<] is
    the lexicographic order of [std::vector]. *)

Class SgnArg (T : Type) := { T0 : T; less : T -> T -> bool }.

Fixpoint vec_less (a b : list R) : bool :=
  match a, b with
  | _, [] => false
  | [], _ :: _ => true
  | x :: a', y :: b' =>
      if x <? y then true else if y <? x then false else vec_less a' b'
  end.

#[global] Instance SgnArg_double : SgnArg R := {| T0 := 0; less := ltb |}.
#[global] Instance SgnArg_int : SgnArg Z := {| T0 := 0%Z; less := Z.ltb |}.
#[global] Instance SgnArg_vector : SgnArg (list R) := {| T0 := []; less := vec_less |}.

Definition sgn {T : Type} `{SgnArg T} (val : T) : Z :=
  (Z.b2z (less T0 val) - Z.b2z (less val T0))%Z.

(** ** Vectors indexed by a particle *)

Definition vget {A : Type} (d : A) (v : list A) (i : nat) : A := nth i v d.

Fixpoint vset {A : Type} (v : list A) (i : nat) (a : A) : list A :=
  match v, i with
  | [], _ => []
  | _ :: v', O => a :: v'
  | b :: v', S i' => b :: vset v' i' a
  end.

(** [unsigned long] arithmetic on the counter [in_left]. *)
Definition wrap64 (z : Z) : Z := (z mod 2 ^ 64)%Z.

(** The two sides, as the constants [LEFT] and [RIGHT] of the class. *)
Definition LEFT : nat := 0.
Definition RIGHT : nat := 1.

(** ** The simulation object *)

Record Simulation : Type := mkSimulation {
  (* parameters *)
  num_particles : Z;
  left_gate_capacity : Z;
  right_gate_capacity : Z;
  circle_radius : R;
  circle_distance : R;
  bridge_height : R;
  explosion_direction_is_random : bool;
  gate_is_flat : bool;
  distance_as_channel_length : bool;
  (* computed by setup *)
  left_center_x : R;
  right_center_x : R;
  max_path : R;
  bridge_length : R;
  gate_capacities : list R;
  (* clock and counters *)
  time : R;
  last_written_time : R;
  in_left : Z;
  reset_counter : Z;
  (* per particle *)
  next_impact_times : list R;
  impact_times : list R;
  next_x_pos : list R;
  next_y_pos : list R;
  x_pos : list R;
  y_pos : list R;
  directions : list R;
  next_directions : list R;
  (* gates: flags per side and particle, occupants per side *)
  gate_arrays : list (list Z);
  gate_contents : list (list nat);
  (* scheduler: particles ordered by next impact time *)
  sorted_indices : list nat;
  (* measurements *)
  measuring_times : list R;
  total_left : list Z;
  (* random device *)
  unif_real : nat -> R;
  rng_state : nat
}.

(** Assignment to one member; the others are kept. *)

Definition set_circle_distance (v : R) (s : Simulation) : Simulation :=
  mkSimulation
    (num_particles s) (left_gate_capacity s) (right_gate_capacity s) (circle_radius s) v
    (bridge_height s) (explosion_direction_is_random s) (gate_is_flat s)
    (distance_as_channel_length s) (left_center_x s) (right_center_x s) (max_path s)
    (bridge_length s) (gate_capacities s) (time s) (last_written_time s) (in_left s)
    (reset_counter s) (next_impact_times s) (impact_times s) (next_x_pos s) (next_y_pos s)
    (x_pos s) (y_pos s) (directions s) (next_directions s) (gate_arrays s) (gate_contents s)
    (sorted_indices s) (measuring_times s) (total_left s) (unif_real s) (rng_state s).

Definition set_left_center_x (v : R) (s : Simulation) : Simulation :=
  mkSimulation
    (num_particles s) (left_gate_capacity s) (right_gate_capacity s) (circle_radius s)
    (circle_distance s) (bridge_height s) (explosion_direction_is_random s) (gate_is_flat s)
    (distance_as_channel_length s) v (right_center_x s) (max_path s) (bridge_length s)
    (gate_capacities s) (time s) (last_written_time s) (in_left s) (reset_counter s)
    (next_impact_times s) (impact_times s) (next_x_pos s) (next_y_pos s) (x_pos s) (y_pos s)
    (directions s) (next_directions s) (gate_arrays s) (gate_contents s) (sorted_indices s)
    (measuring_times s) (total_left s) (unif_real s) (rng_state s).

Definition set_right_center_x (v : R) (s : Simulation) : Simulation :=
  mkSimulation
    (num_particles s) (left_gate_capacity s) (right_gate_capacity s) (circle_radius s)
    (circle_distance s) (bridge_height s) (explosion_direction_is_random s) (gate_is_flat s)
    (distance_as_channel_length s) (left_center_x s) v (max_path s) (bridge_length s)
    (gate_capacities s) (time s) (last_written_time s) (in_left s) (reset_counter s)
    (next_impact_times s) (impact_times s) (next_x_pos s) (next_y_pos s) (x_pos s) (y_pos s)
    (directions s) (next_directions s) (gate_arrays s) (gate_contents s) (sorted_indices s)
    (measuring_times s) (total_left s) (unif_real s) (rng_state s).

Definition set_max_path (v : R) (s : Simulation) : Simulation :=
  mkSimulation
    (num_particles s) (left_gate_capacity s) (right_gate_capacity s) (circle_radius s)
    (circle_distance s) (bridge_height s) (explosion_direction_is_random s) (gate_is_flat s)
    (distance_as_channel_length s) (left_center_x s) (right_center_x s) v (bridge_length s)
    (gate_capacities s) (time s) (last_written_time s) (in_left s) (reset_counter s)
    (next_impact_times s) (impact_times s) (next_x_pos s) (next_y_pos s) (x_pos s) (y_pos s)
    (directions s) (next_directions s) (gate_arrays s) (gate_contents s) (sorted_indices s)
    (measuring_times s) (total_left s) (unif_real s) (rng_state s).

Definition set_bridge_length (v : R) (s : Simulation) : Simulation :=
  mkSimulation
    (num_particles s) (left_gate_capacity s) (right_gate_capacity s) (circle_radius s)
    (circle_distance s) (bridge_height s) (explosion_direction_is_random s) (gate_is_flat s)
    (distance_as_channel_length s) (left_center_x s) (right_center_x s) (max_path s) v
    (gate_capacities s) (time s) (last_written_time s) (in_left s) (reset_counter s)
    (next_impact_times s) (impact_times s) (next_x_pos s) (next_y_pos s) (x_pos s) (y_pos s)
    (directions s) (next_directions s) (gate_arrays s) (gate_contents s) (sorted_indices s)
    (measuring_times s) (total_left s) (unif_real s) (rng_state s).

Definition set_gate_capacities (v : list R) (s : Simulation) : Simulation :=
  mkSimulation
    (num_particles s) (left_gate_capacity s) (right_gate_capacity s) (circle_radius s)
    (circle_distance s) (bridge_height s) (explosion_direction_is_random s) (gate_is_flat s)
    (distance_as_channel_length s) (left_center_x s) (right_center_x s) (max_path s)
    (bridge_length s) v (time s) (last_written_time s) (in_left s) (reset_counter s)
    (next_impact_times s) (impact_times s) (next_x_pos s) (next_y_pos s) (x_pos s) (y_pos s)
    (directions s) (next_directions s) (gate_arrays s) (gate_contents s) (sorted_indices s)
    (measuring_times s) (total_left s) (unif_real s) (rng_state s).

Definition set_time (v : R) (s : Simulation) : Simulation :=
  mkSimulation
    (num_particles s) (left_gate_capacity s) (right_gate_capacity s) (circle_radius s)
    (circle_distance s) (bridge_height s) (explosion_direction_is_random s) (gate_is_flat s)
    (distance_as_channel_length s) (left_center_x s) (right_center_x s) (max_path s)
    (bridge_length s) (gate_capacities s) v (last_written_time s) (in_left s)
    (reset_counter s) (next_impact_times s) (impact_times s) (next_x_pos s) (next_y_pos s)
    (x_pos s) (y_pos s) (directions s) (next_directions s) (gate_arrays s) (gate_contents s)
    (sorted_indices s) (measuring_times s) (total_left s) (unif_real s) (rng_state s).

Definition set_last_written_time (v : R) (s : Simulation) : Simulation :=
  mkSimulation
    (num_particles s) (left_gate_capacity s) (right_gate_capacity s) (circle_radius s)
    (circle_distance s) (bridge_height s) (explosion_direction_is_random s) (gate_is_flat s)
    (distance_as_channel_length s) (left_center_x s) (right_center_x s) (max_path s)
    (bridge_length s) (gate_capacities s) (time s) v (in_left s) (reset_counter s)
    (next_impact_times s) (impact_times s) (next_x_pos s) (next_y_pos s) (x_pos s) (y_pos s)
    (directions s) (next_directions s) (gate_arrays s) (gate_contents s) (sorted_indices s)
    (measuring_times s) (total_left s) (unif_real s) (rng_state s).

Definition set_in_left (v : Z) (s : Simulation) : Simulation :=
  mkSimulation
    (num_particles s) (left_gate_capacity s) (right_gate_capacity s) (circle_radius s)
    (circle_distance s) (bridge_height s) (explosion_direction_is_random s) (gate_is_flat s)
    (distance_as_channel_length s) (left_center_x s) (right_center_x s) (max_path s)
    (bridge_length s) (gate_capacities s) (time s) (last_written_time s) v (reset_counter s)
    (next_impact_times s) (impact_times s) (next_x_pos s) (next_y_pos s) (x_pos s) (y_pos s)
    (directions s) (next_directions s) (gate_arrays s) (gate_contents s) (sorted_indices s)
    (measuring_times s) (total_left s) (unif_real s) (rng_state s).

Definition set_reset_counter (v : Z) (s : Simulation) : Simulation :=
  mkSimulation
    (num_particles s) (left_gate_capacity s) (right_gate_capacity s) (circle_radius s)
    (circle_distance s) (bridge_height s) (explosion_direction_is_random s) (gate_is_flat s)
    (distance_as_channel_length s) (left_center_x s) (right_center_x s) (max_path s)
    (bridge_length s) (gate_capacities s) (time s) (last_written_time s) (in_left s) v
    (next_impact_times s) (impact_times s) (next_x_pos s) (next_y_pos s) (x_pos s) (y_pos s)
    (directions s) (next_directions s) (gate_arrays s) (gate_contents s) (sorted_indices s)
    (measuring_times s) (total_left s) (unif_real s) (rng_state s).

Definition set_next_impact_times (v : list R) (s : Simulation) : Simulation :=
  mkSimulation
    (num_particles s) (left_gate_capacity s) (right_gate_capacity s) (circle_radius s)
    (circle_distance s) (bridge_height s) (explosion_direction_is_random s) (gate_is_flat s)
    (distance_as_channel_length s) (left_center_x s) (right_center_x s) (max_path s)
    (bridge_length s) (gate_capacities s) (time s) (last_written_time s) (in_left s)
    (reset_counter s) v (impact_times s) (next_x_pos s) (next_y_pos s) (x_pos s) (y_pos s)
    (directions s) (next_directions s) (gate_arrays s) (gate_contents s) (sorted_indices s)
    (measuring_times s) (total_left s) (unif_real s) (rng_state s).

Definition set_impact_times (v : list R) (s : Simulation) : Simulation :=
  mkSimulation
    (num_particles s) (left_gate_capacity s) (right_gate_capacity s) (circle_radius s)
    (circle_distance s) (bridge_height s) (explosion_direction_is_random s) (gate_is_flat s)
    (distance_as_channel_length s) (left_center_x s) (right_center_x s) (max_path s)
    (bridge_length s) (gate_capacities s) (time s) (last_written_time s) (in_left s)
    (reset_counter s) (next_impact_times s) v (next_x_pos s) (next_y_pos s) (x_pos s)
    (y_pos s) (directions s) (next_directions s) (gate_arrays s) (gate_contents s)
    (sorted_indices s) (measuring_times s) (total_left s) (unif_real s) (rng_state s).

Definition set_next_x_pos (v : list R) (s : Simulation) : Simulation :=
  mkSimulation
    (num_particles s) (left_gate_capacity s) (right_gate_capacity s) (circle_radius s)
    (circle_distance s) (bridge_height s) (explosion_direction_is_random s) (gate_is_flat s)
    (distance_as_channel_length s) (left_center_x s) (right_center_x s) (max_path s)
    (bridge_length s) (gate_capacities s) (time s) (last_written_time s) (in_left s)
    (reset_counter s) (next_impact_times s) (impact_times s) v (next_y_pos s) (x_pos s)
    (y_pos s) (directions s) (next_directions s) (gate_arrays s) (gate_contents s)
    (sorted_indices s) (measuring_times s) (total_left s) (unif_real s) (rng_state s).

Definition set_next_y_pos (v : list R) (s : Simulation) : Simulation :=
  mkSimulation
    (num_particles s) (left_gate_capacity s) (right_gate_capacity s) (circle_radius s)
    (circle_distance s) (bridge_height s) (explosion_direction_is_random s) (gate_is_flat s)
    (distance_as_channel_length s) (left_center_x s) (right_center_x s) (max_path s)
    (bridge_length s) (gate_capacities s) (time s) (last_written_time s) (in_left s)
    (reset_counter s) (next_impact_times s) (impact_times s) (next_x_pos s) v (x_pos s)
    (y_pos s) (directions s) (next_directions s) (gate_arrays s) (gate_contents s)
    (sorted_indices s) (measuring_times s) (total_left s) (unif_real s) (rng_state s).

Definition set_x_pos (v : list R) (s : Simulation) : Simulation :=
  mkSimulation
    (num_particles s) (left_gate_capacity s) (right_gate_capacity s) (circle_radius s)
    (circle_distance s) (bridge_height s) (explosion_direction_is_random s) (gate_is_flat s)
    (distance_as_channel_length s) (left_center_x s) (right_center_x s) (max_path s)
    (bridge_length s) (gate_capacities s) (time s) (last_written_time s) (in_left s)
    (reset_counter s) (next_impact_times s) (impact_times s) (next_x_pos s) (next_y_pos s) v
    (y_pos s) (directions s) (next_directions s) (gate_arrays s) (gate_contents s)
    (sorted_indices s) (measuring_times s) (total_left s) (unif_real s) (rng_state s).

Definition set_y_pos (v : list R) (s : Simulation) : Simulation :=
  mkSimulation
    (num_particles s) (left_gate_capacity s) (right_gate_capacity s) (circle_radius s)
    (circle_distance s) (bridge_height s) (explosion_direction_is_random s) (gate_is_flat s)
    (distance_as_channel_length s) (left_center_x s) (right_center_x s) (max_path s)
    (bridge_length s) (gate_capacities s) (time s) (last_written_time s) (in_left s)
    (reset_counter s) (next_impact_times s) (impact_times s) (next_x_pos s) (next_y_pos s)
    (x_pos s) v (directions s) (next_directions s) (gate_arrays s) (gate_contents s)
    (sorted_indices s) (measuring_times s) (total_left s) (unif_real s) (rng_state s).

Definition set_directions (v : list R) (s : Simulation) : Simulation :=
  mkSimulation
    (num_particles s) (left_gate_capacity s) (right_gate_capacity s) (circle_radius s)
    (circle_distance s) (bridge_height s) (explosion_direction_is_random s) (gate_is_flat s)
    (distance_as_channel_length s) (left_center_x s) (right_center_x s) (max_path s)
    (bridge_length s) (gate_capacities s) (time s) (last_written_time s) (in_left s)
    (reset_counter s) (next_impact_times s) (impact_times s) (next_x_pos s) (next_y_pos s)
    (x_pos s) (y_pos s) v (next_directions s) (gate_arrays s) (gate_contents s)
    (sorted_indices s) (measuring_times s) (total_left s) (unif_real s) (rng_state s).

Definition set_next_directions (v : list R) (s : Simulation) : Simulation :=
  mkSimulation
    (num_particles s) (left_gate_capacity s) (right_gate_capacity s) (circle_radius s)
    (circle_distance s) (bridge_height s) (explosion_direction_is_random s) (gate_is_flat s)
    (distance_as_channel_length s) (left_center_x s) (right_center_x s) (max_path s)
    (bridge_length s) (gate_capacities s) (time s) (last_written_time s) (in_left s)
    (reset_counter s) (next_impact_times s) (impact_times s) (next_x_pos s) (next_y_pos s)
    (x_pos s) (y_pos s) (directions s) v (gate_arrays s) (gate_contents s)
    (sorted_indices s) (measuring_times s) (total_left s) (unif_real s) (rng_state s).

Definition set_gate_arrays (v : list (list Z)) (s : Simulation) : Simulation :=
  mkSimulation
    (num_particles s) (left_gate_capacity s) (right_gate_capacity s) (circle_radius s)
    (circle_distance s) (bridge_height s) (explosion_direction_is_random s) (gate_is_flat s)
    (distance_as_channel_length s) (left_center_x s) (right_center_x s) (max_path s)
    (bridge_length s) (gate_capacities s) (time s) (last_written_time s) (in_left s)
    (reset_counter s) (next_impact_times s) (impact_times s) (next_x_pos s) (next_y_pos s)
    (x_pos s) (y_pos s) (directions s) (next_directions s) v (gate_contents s)
    (sorted_indices s) (measuring_times s) (total_left s) (unif_real s) (rng_state s).

Definition set_gate_contents (v : list (list nat)) (s : Simulation) : Simulation :=
  mkSimulation
    (num_particles s) (left_gate_capacity s) (right_gate_capacity s) (circle_radius s)
    (circle_distance s) (bridge_height s) (explosion_direction_is_random s) (gate_is_flat s)
    (distance_as_channel_length s) (left_center_x s) (right_center_x s) (max_path s)
    (bridge_length s) (gate_capacities s) (time s) (last_written_time s) (in_left s)
    (reset_counter s) (next_impact_times s) (impact_times s) (next_x_pos s) (next_y_pos s)
    (x_pos s) (y_pos s) (directions s) (next_directions s) (gate_arrays s) v
    (sorted_indices s) (measuring_times s) (total_left s) (unif_real s) (rng_state s).

Definition set_sorted_indices (v : list nat) (s : Simulation) : Simulation :=
  mkSimulation
    (num_particles s) (left_gate_capacity s) (right_gate_capacity s) (circle_radius s)
    (circle_distance s) (bridge_height s) (explosion_direction_is_random s) (gate_is_flat s)
    (distance_as_channel_length s) (left_center_x s) (right_center_x s) (max_path s)
    (bridge_length s) (gate_capacities s) (time s) (last_written_time s) (in_left s)
    (reset_counter s) (next_impact_times s) (impact_times s) (next_x_pos s) (next_y_pos s)
    (x_pos s) (y_pos s) (directions s) (next_directions s) (gate_arrays s) (gate_contents s)
    v (measuring_times s) (total_left s) (unif_real s) (rng_state s).

Definition set_measuring_times (v : list R) (s : Simulation) : Simulation :=
  mkSimulation
    (num_particles s) (left_gate_capacity s) (right_gate_capacity s) (circle_radius s)
    (circle_distance s) (bridge_height s) (explosion_direction_is_random s) (gate_is_flat s)
    (distance_as_channel_length s) (left_center_x s) (right_center_x s) (max_path s)
    (bridge_length s) (gate_capacities s) (time s) (last_written_time s) (in_left s)
    (reset_counter s) (next_impact_times s) (impact_times s) (next_x_pos s) (next_y_pos s)
    (x_pos s) (y_pos s) (directions s) (next_directions s) (gate_arrays s) (gate_contents s)
    (sorted_indices s) v (total_left s) (unif_real s) (rng_state s).

Definition set_total_left (v : list Z) (s : Simulation) : Simulation :=
  mkSimulation
    (num_particles s) (left_gate_capacity s) (right_gate_capacity s) (circle_radius s)
    (circle_distance s) (bridge_height s) (explosion_direction_is_random s) (gate_is_flat s)
    (distance_as_channel_length s) (left_center_x s) (right_center_x s) (max_path s)
    (bridge_length s) (gate_capacities s) (time s) (last_written_time s) (in_left s)
    (reset_counter s) (next_impact_times s) (impact_times s) (next_x_pos s) (next_y_pos s)
    (x_pos s) (y_pos s) (directions s) (next_directions s) (gate_arrays s) (gate_contents s)
    (sorted_indices s) (measuring_times s) v (unif_real s) (rng_state s).

Definition set_rng_state (v : nat) (s : Simulation) : Simulation :=
  mkSimulation
    (num_particles s) (left_gate_capacity s) (right_gate_capacity s) (circle_radius s)
    (circle_distance s) (bridge_height s) (explosion_direction_is_random s) (gate_is_flat s)
    (distance_as_channel_length s) (left_center_x s) (right_center_x s) (max_path s)
    (bridge_length s) (gate_capacities s) (time s) (last_written_time s) (in_left s)
    (reset_counter s) (next_impact_times s) (impact_times s) (next_x_pos s) (next_y_pos s)
    (x_pos s) (y_pos s) (directions s) (next_directions s) (gate_arrays s) (gate_contents s)
    (sorted_indices s) (measuring_times s) (total_left s) (unif_real s) v.

(** ** Geometry *)

(** The macros [px] and [py]: [x_pos[particle]], [y_pos[particle]]. *)
Definition px (s : Simulation) (particle : nat) : R := vget 0 (x_pos s) particle.
Definition py (s : Simulation) (particle : nat) : R := vget 0 (y_pos s) particle.

Definition is_in_circle (s : Simulation) (x y : R) (side : nat) : bool :=
  if Nat.eqb side LEFT then
    (x - left_center_x s) * (x - left_center_x s) + y * y <? circle_radius s * circle_radius s
  else
    (x - right_center_x s) * (x - right_center_x s) + y * y <? circle_radius s * circle_radius s.

Definition is_in_bridge (s : Simulation) (x y : R) : bool :=
  (fabs x <=? bridge_length s / 2) && (fabs y <=? bridge_height s / 2).

Definition is_in_domain (s : Simulation) (x y : R) : bool :=
  if is_in_bridge s x y then true
  else if x <? 0 then is_in_circle s x y LEFT
  else is_in_circle s x y RIGHT.

(** [((int) direction * 2 - 1) * x >= 0] with [direction] 0 or 1. *)
Definition is_in_gate (s : Simulation) (x y : R) (direction : nat) : bool :=
  if gate_is_flat s then
    (IZR (Z.of_nat direction * 2 - 1) * x >=? 0) && (fabs x <=? bridge_length s / 2)
  else
    (IZR (Z.of_nat direction * 2 - 1) * x >=? 0) && negb (is_in_circle s x y direction).

Definition is_going_in (s : Simulation) (particle : nat) : bool :=
  px s particle * cos (vget 0 (directions s) particle) <=? 0.

(** The bridge is lengthened until its corners lie on the two circles. *)
Definition couple_bridge (s : Simulation) : Simulation :=
  let discrepancy :=
    2 * sqrt (circle_radius s ^ 2 - bridge_height s ^ 2 / 4) - 2 * circle_radius s in
  if distance_as_channel_length s then
    let s := set_bridge_length (circle_distance s) s in
    set_circle_distance (bridge_length s + discrepancy) s
  else
    set_bridge_length (circle_distance s - discrepancy) s.

(** [std::vector::resize]: cut to [n] elements or pad with zeros. *)
Definition resize {A : Type} (d : A) (n : nat) (v : list A) : list A :=
  firstn n v ++ repeat d (n - length v).

(** The constructor: the members it does not mention start empty, and
    [bridge_length] at 0.  The stream of random numbers is the state of the
    random device the constructor seeds. *)
Definition new_Simulation (num_particles : Z) (bridge_height : R)
    (circle_radius circle_distance : R) (left_gate_capacity right_gate_capacity : Z)
    (random_dir flat_gate : bool) (device : nat -> R) : Simulation :=
  mkSimulation num_particles left_gate_capacity right_gate_capacity
    circle_radius circle_distance bridge_height random_dir flat_gate false
    0 0 0 0 [] 0 0 0%Z 0%Z [] [] [] [] [] [] [] [] [] [] [] [] [] device 0.

Definition setup (s : Simulation) : Simulation :=
  let n := Z.to_nat (num_particles s) in
  let s := set_next_impact_times (resize 0 n (next_impact_times s)) s in
  let s := set_sorted_indices (resize 0%nat n (sorted_indices s)) s in
  let s := set_impact_times (resize 0 n (impact_times s)) s in
  let s := set_x_pos (resize 0 n (x_pos s)) s in
  let s := set_y_pos (resize 0 n (y_pos s)) s in
  let s := set_next_x_pos (resize 0 n (next_x_pos s)) s in
  let s := set_next_y_pos (resize 0 n (next_y_pos s)) s in
  let s := set_directions (resize 0 n (directions s)) s in
  let s := set_next_directions (resize 0 n (next_directions s)) s in
  let s := set_gate_arrays (gate_arrays s ++ [repeat 0%Z n; repeat 0%Z n]) s in
  let s := set_gate_contents (gate_contents s ++ [[]; []]) s in
  let s := set_gate_capacities
             (gate_capacities s ++ [IZR (left_gate_capacity s); IZR (right_gate_capacity s)]) s in
  let s := couple_bridge s in
  let s := set_left_center_x (- circle_distance s / 2 - circle_radius s) s in
  let s := set_right_center_x (circle_distance s / 2 + circle_radius s) s in
  set_max_path (circle_distance s + bridge_height s + circle_radius s * 4) s.

(** ** Ray casting

    A reference parameter [double &normal_angle] is an argument and a
    component of the result: the function returns the value the caller's
    variable holds afterwards. *)

Definition dir (s : Simulation) (particle : nat) : R := vget 0 (directions s) particle.

(** The two rails of the bridge.  [denom] is 0 for a horizontal ray; the
    source then gets infinities or NaNs for [t1], [t2], which fail
    [t < min_t], as the 0 of this model fails [EPS < t]. *)
Definition time_to_hit_bridge (s : Simulation) (particle : nat) (normal_angle : R) : R * R :=
  let rx := max_path s * cos (dir s particle) in
  let ry := max_path s * sin (dir s particle) in
  let sx := bridge_length s in
  let sy := 0 in
  let denom := rx * sy - ry * sx in
  let u1 := ((- bridge_length s / 2 - px s particle) * ry
             - (- bridge_height s / 2 - py s particle) * rx) / denom in
  let u2 := ((- bridge_length s / 2 - px s particle) * ry
             - (bridge_height s / 2 - py s particle) * rx) / denom in
  let t1 := ((- bridge_length s / 2 - px s particle) * sy
             - (- bridge_height s / 2 - py s particle) * sx) / denom in
  let t2 := ((- bridge_length s / 2 - px s particle) * sy
             - (bridge_height s / 2 - py s particle) * sx) / denom in
  let min_t := 1 in
  let '(min_t, normal_angle) :=
    if (EPS <? t1) && (t1 <? min_t) && (0 <=? u1) && (u1 <=? 1)
    then (t1 - EPS, PI / 2) else (min_t, normal_angle) in
  let '(min_t, normal_angle) :=
    if (EPS <? t2) && (t2 <? min_t) && (0 <=? u2) && (u2 <=? 1)
    then (t2 - EPS, - PI / 2) else (min_t, normal_angle) in
  (min_t * max_path s, normal_angle).

(** Roots of the ray against the circle around [(center_x, 0)]; [t1], [t2]
    keep the caller's values when the discriminant is negative.  The
    divisors [circle_radius] and [2 * a] are nonzero as soon as
    [circle_radius] and [max_path] are. *)
Definition circle_intersections (s : Simulation) (particle : nat) (center_x : R)
    (t1 t2 : R) : R * R :=
  let add_x := max_path s * cos (dir s particle) in
  let add_y := max_path s * sin (dir s particle) in
  let t_pos_x := (px s particle - center_x) / circle_radius s in
  let t_pos_y := (py s particle - 0) / circle_radius s in
  let t_add_x := add_x / circle_radius s in
  let t_add_y := add_y / circle_radius s in
  let a := t_add_x * t_add_x + t_add_y * t_add_y in
  let b := 2 * t_pos_x * t_add_x + 2 * t_pos_y * t_add_y in
  let c := t_pos_x * t_pos_x + t_pos_y * t_pos_y - 1 in
  let D := b * b - 4 * a * c in
  if D >=? 0 then ((- b - sqrt D) / (2 * a), (- b + sqrt D) / (2 * a))
  else (t1, t2).

Definition time_to_hit_circle (s : Simulation) (particle : nat) (center_x : R)
    (normal_angle : R) : R * R :=
  let min_t := 1 in
  let t1 := -1 in
  let t2 := -1 in
  let add_x := max_path s * cos (dir s particle) in
  let add_y := max_path s * sin (dir s particle) in
  let '(t1, t2) := circle_intersections s particle center_x t1 t2 in
  let '(min_t, normal_angle) :=
    if (EPS <? t1) && (t1 <? min_t) then
      let impact_x := px s particle + t1 * add_x in
      let impact_y := py s particle + t1 * add_y in
      if negb (is_in_bridge s impact_x impact_y)
      then (t1 - EPS, atan2 (0 - impact_y) (center_x - impact_x))
      else (min_t, normal_angle)
    else (min_t, normal_angle) in
  let '(min_t, normal_angle) :=
    if (EPS <? t2) && (t2 <? min_t) then
      let impact_x := px s particle + t2 * add_x in
      let impact_y := py s particle + t2 * add_y in
      if negb (is_in_bridge s impact_x impact_y)
      then (t2 - EPS, atan2 (0 - impact_y) (center_x - impact_x))
      else (min_t, normal_angle)
    else (min_t, normal_angle) in
  (min_t * max_path s, normal_angle).

Definition get_reflection_angle (angle_in normal_angle : R) : R :=
  fmod (2 * normal_angle - angle_in + PI) (2 * PI).

(** One draw from the uniform distribution on [0, 1) through the random device. *)
Definition draw (s : Simulation) : R * Simulation :=
  (unif_real s (rng_state s), set_rng_state (S (rng_state s)) s).

Definition get_retraction_angle (s : Simulation) (particle : nat) : R * Simulation :=
  if explosion_direction_is_random s then
    let side := sgn (px s particle) in
    let '(u, s) := draw s in
    ((u - 0.5) * PI + PI / 2 * IZR (1 - sgn side), s)
  else if cos (dir s particle) * vget 0 (x_pos s) particle <? 0 then
    (dir s particle + PI, s)
  else (dir s particle, s).

(** One pass of the loop over the two circles in the arc branch of
    [time_to_hit_gate]; [t1], [t2] and [min_t] live across the passes. *)
Definition gate_arc_pass (s : Simulation) (particle : nat) (direction : nat)
    (acc : R * R * R) : R * R * R :=
  let '(min_t, t1, t2) := acc in
  let add_x := max_path s * cos (dir s particle) in
  let add_y := max_path s * sin (dir s particle) in
  let center_x := if Nat.eqb direction RIGHT then right_center_x s else left_center_x s in
  let '(t1, t2) := circle_intersections s particle center_x t1 t2 in
  let min_t :=
    if (EPS <? t1) && (t1 <? min_t) then
      if is_in_bridge s (px s particle + t1 * add_x) (py s particle + t1 * add_y)
      then t1 else min_t
    else min_t in
  let min_t :=
    if (EPS <? t2) && (t2 <? min_t) then
      if is_in_bridge s (px s particle + t2 * add_x) (py s particle + t2 * add_y)
      then t2 else min_t
    else min_t in
  (min_t, t1, t2).

(** A flat gate divides by [cos]; for a vertical ray the source gets an
    infinity or a NaN, which fails [to_gate < min_path], as the 0 of this
    model fails [to_gate > 0]. *)
Definition time_to_hit_gate (s : Simulation) (particle : nat) : R :=
  let min_path := max_path s in
  if gate_is_flat s then
    let to_left_gate := (- bridge_length s / 2 - px s particle) / cos (dir s particle) in
    let to_right_gate := (bridge_length s / 2 - px s particle) / cos (dir s particle) in
    let min_path :=
      if (to_left_gate >? 0) && (to_left_gate <? min_path) then to_left_gate else min_path in
    let min_path :=
      if (to_right_gate >? 0) && (to_right_gate <? min_path) then to_right_gate else min_path in
    min_path
  else
    let '(min_t, _, _) :=
      gate_arc_pass s particle 1 (gate_arc_pass s particle 0 (1, -1, -1)) in
    min_t * max_path s.

(** The vertical segment [x = 0].  [rx * sy] is 0 for a vertical ray; the
    source then gets an infinite or NaN [t], which fails [t < min_t], as
    the 0 of this model fails [EPS < t]. *)
Definition time_to_hit_middle (s : Simulation) (particle : nat) : R :=
  let min_t := 1 in
  let rx := max_path s * cos (dir s particle) in
  let ry := max_path s * sin (dir s particle) in
  let sx := 0 in
  let sy := bridge_height s in
  let denum := 1 / (rx * sy - ry * sx) in
  let u := ((0 - px s particle) * ry - (- bridge_height s / 2 - py s particle) * rx) * denum in
  let t := ((0 - px s particle) * sy - (- bridge_height s / 2 - py s particle) * sx) * denum in
  let min_t := if (EPS <? t) && (t <? min_t) && (0 <=? u) && (u <=? 1) then t + EPS else min_t in
  min_t * max_path s.

(** ** Planner *)

Notation "'do' x <- m ; k" :=
  (match m with Some x => k | None => None end)
  (at level 10, x name, m at level 100, k at level 200).

(** The rejection loop of [reset_particle]: two draws per pass. *)
Fixpoint reset_loop (fuel : nat) (s : Simulation) (particle : nat)
    (box_x_radius box_y_radius : R) (direction : nat) : option Simulation :=
  if negb (is_in_circle s (px s particle) (py s particle) direction)
     || is_in_gate s (px s particle) (py s particle) direction
     || is_in_bridge s (px s particle) (py s particle)
  then
    match fuel with
    | O => None
    | S fuel =>
        let '(u, s) := draw s in
        let s := set_x_pos (vset (x_pos s) particle ((u - 0.5) * box_x_radius * 2)) s in
        let '(u, s) := draw s in
        let s := set_y_pos (vset (y_pos s) particle ((u - 0.5) * box_y_radius * 2)) s in
        reset_loop fuel s particle box_x_radius box_y_radius direction
    end
  else Some s.

Definition reset_particle (fuel : nat) (s : Simulation) (particle : nat)
    (box_x_radius box_y_radius : R) (direction : nat) : option Simulation :=
  let s := set_x_pos (vset (x_pos s) particle 0) s in
  let s := set_y_pos (vset (y_pos s) particle 0) s in
  do s <- reset_loop fuel s particle box_x_radius box_y_radius direction;
  let '(u, s) := draw s in
  Some (set_directions (vset (directions s) particle ((u - 0.5) * 2 * PI)) s).

(** The first part of [compute_next_impact]: the five candidates in the
    order of the source, and the pair [(next_time, next_angle)] they leave.
    The local [angle] is not initialised in the source; it is written by
    each of the three calls whose result is used. *)
Definition earliest_impact (s : Simulation) (particle : nat) : R * R :=
  let next_time := max_path s in
  let next_angle := 0 in
  let angle := 0 in
  let '(to_bridge, angle) := time_to_hit_bridge s particle angle in
  let '(next_time, next_angle) :=
    if to_bridge <? next_time
    then (to_bridge, get_reflection_angle (dir s particle) angle)
    else (next_time, next_angle) in
  let '(to_left, angle) := time_to_hit_circle s particle (left_center_x s) angle in
  let '(next_time, next_angle) :=
    if to_left <? next_time
    then (to_left, get_reflection_angle (dir s particle) angle)
    else (next_time, next_angle) in
  let '(to_right, angle) := time_to_hit_circle s particle (right_center_x s) angle in
  let '(next_time, next_angle) :=
    if to_right <? next_time
    then (to_right, get_reflection_angle (dir s particle) angle)
    else (next_time, next_angle) in
  let to_gate := time_to_hit_gate s particle in
  let '(next_time, next_angle) :=
    if to_gate <? next_time then (to_gate + EPS, dir s particle)
    else (next_time, next_angle) in
  let to_middle := time_to_hit_middle s particle in
  let '(next_time, next_angle) :=
    if to_middle <? next_time then (to_middle + EPS, dir s particle)
    else (next_time, next_angle) in
  (next_time, next_angle).

(** The last part of [compute_next_impact]: the planned impact is written
    to the four [next_] members. *)
Definition plan_impact (s : Simulation) (particle : nat) (next_time next_angle : R)
    : Simulation :=
  let s := set_next_x_pos
             (vset (next_x_pos s) particle (px s particle + next_time * cos (dir s particle))) s in
  let s := set_next_y_pos
             (vset (next_y_pos s) particle (py s particle + next_time * sin (dir s particle))) s in
  let s := set_next_impact_times (vset (next_impact_times s) particle (time s + next_time)) s in
  set_next_directions (vset (next_directions s) particle next_angle) s.

Fixpoint compute_next_impact (fuel : nat) (s : Simulation) (particle : nat)
    : option Simulation :=
  let '(next_time, next_angle) := earliest_impact s particle in
  if next_time =? max_path s then
    match fuel with
    | O => None
    | S fuel =>
        let s := set_reset_counter (reset_counter s + 1)%Z s in
        let box_x_radius := circle_distance s / 2 + circle_radius s * 2 in
        let box_y_radius := circle_radius s in
        let direction := if px s particle >? 0 then RIGHT else LEFT in
        do s <- reset_particle fuel s particle box_x_radius box_y_radius direction;
        compute_next_impact fuel s particle
    end
  else Some (plan_impact s particle next_time next_angle).

(** ** Scheduler: [std::list<unsigned long> sorted_indices] *)

(** [std::list::sort] is stable: of two particles with the same key the
    one with the smaller index stays first.  Insertion behind the elements
    that are not greater is that sort, for the comparison of the source,
    [next_impact_times[i1] < next_impact_times[i2]]. *)
Fixpoint sort_insert (key : nat -> R) (i : nat) (l : list nat) : list nat :=
  match l with
  | [] => [i]
  | j :: l' => if key i <? key j then i :: l else j :: sort_insert key i l'
  end.

Definition sort_indices (s : Simulation) : Simulation :=
  let key := vget 0 (next_impact_times s) in
  let iota := seq 0 (length (sorted_indices s)) in
  set_sorted_indices (fold_left (fun acc i => sort_insert key i acc) iota []) s.

(** The loop of [insert_index]: a binary search for the first position in
    [l, r] whose particle has a key that is not smaller.  It reads the list
    at [m]; [None] when [m] is not a position of the list (the source would
    dereference [end()]).  The loop ends after at most [r - l] passes. *)
Fixpoint insert_search (n : nat) (key : nat -> R) (indices : list nat)
    (impact_time : R) (l r : nat) : option nat :=
  if (l <? r)%nat then
    match n with
    | O => None
    | S n =>
        let m := ((l + r) / 2)%nat in
        do p <- nth_error indices m;
        let m_time := key p in
        if m_time <? impact_time
        then insert_search n key indices impact_time (m + 1)%nat r
        else insert_search n key indices impact_time l m
    end
  else Some l.

(** [std::list::insert] before position [l]. *)
Definition list_insert (l : nat) (particle : nat) (indices : list nat) : list nat :=
  firstn l indices ++ particle :: skipn l indices.

Definition insert_index (s : Simulation) (particle : nat) : option Simulation :=
  let impact_time := vget 0 (next_impact_times s) particle in
  let l := 0%nat in
  let r := Z.to_nat (num_particles s - 1) in
  do l <- insert_search (S r) (vget 0 (next_impact_times s)) (sorted_indices s) impact_time l r;
  if (l <=? length (sorted_indices s))%nat
  then Some (set_sorted_indices (list_insert l particle (sorted_indices s)) s)
  else None.

(** [std::list::remove] erases every element equal to [particle]. *)
Definition list_remove (particle : nat) (indices : list nat) : list nat :=
  filter (fun p => negb (Nat.eqb p particle)) indices.

Definition reindex_particle (s : Simulation) (particle : nat) (was_minimum : bool)
    : option Simulation :=
  if was_minimum then
    match sorted_indices s with
    | [] => None
    | _ :: rest => insert_index (set_sorted_indices rest s) particle
    end
  else
    insert_index (set_sorted_indices (list_remove particle (sorted_indices s)) s) particle.

(** ** Gate protocol *)

(** A division of doubles whose divisor is checked: it has no result when
    the divisor is zero. *)
Definition checked_div (x y : R) : option R := if y =? 0 then None else Some (x / y).

(** Interpolated position at the current [time].  The two divisions are
    checked: the function has no result if it divides by zero. *)
Definition get_current_position (s : Simulation) (particle : nat) : option (R * R) :=
  let it := vget 0 (impact_times s) particle in
  let nit := vget 0 (next_impact_times s) particle in
  if it =? nit then Some (px s particle, py s particle)
  else
    do qx <- checked_div ((vget 0 (next_x_pos s) particle - px s particle) * (it - time s))
               (it - nit);
    do qy <- checked_div ((vget 0 (next_y_pos s) particle - py s particle) * (it - time s))
               (it - nit);
    Some (px s particle + qx, py s particle + qy).

Definition flag (s : Simulation) (direction particle : nat) : Z :=
  vget 0%Z (vget [] (gate_arrays s) direction) particle.

Definition set_flag (direction particle : nat) (v : Z) (s : Simulation) : Simulation :=
  set_gate_arrays
    (vset (gate_arrays s) direction (vset (vget [] (gate_arrays s) direction) particle v)) s.

Definition contents (s : Simulation) (direction : nat) : list nat :=
  vget [] (gate_contents s) direction.

Definition set_contents (direction : nat) (v : list nat) (s : Simulation) : Simulation :=
  set_gate_contents (vset (gate_contents s) direction v) s.

(** The erase-remove idiom on [gate_contents[direction]]. *)
Definition erase_remove (direction particle : nat) (s : Simulation) : Simulation :=
  set_contents direction (list_remove particle (contents s direction)) s.

Definition check_gate_departure (s : Simulation) (particle direction : nat) : Simulation :=
  if (flag s direction particle =? 1)%Z then
    set_flag direction particle 0%Z (erase_remove direction particle s)
  else s.

(** The do-while of [explode_gate]: retract the particle that found the
    gate full and plan again, until the planned position is in the domain. *)
Fixpoint retract_trigger (fuel : nat) (s : Simulation) (exp_particle : nat)
    : option Simulation :=
  match fuel with
  | O => None
  | S fuel =>
      let '(a, s) := get_retraction_angle s exp_particle in
      let s := set_directions (vset (directions s) exp_particle a) s in
      do s <- compute_next_impact fuel s exp_particle;
      if negb (is_in_domain s (vget 0 (next_x_pos s) exp_particle)
                              (vget 0 (next_y_pos s) exp_particle))
      then retract_trigger fuel s exp_particle
      else Some s
  end.

(** The body of the range-for of [explode_gate] for one occupant. *)
Definition retract_occupant (fuel : nat) (s : Simulation) (particle direction : nat)
    : option Simulation :=
  do position <- get_current_position s particle;
  let '(x, y) := position in
  let s :=
    if negb (is_in_domain s x y) then s
    else if negb (is_in_gate s x y direction) then erase_remove direction particle s
    else s in
  let s := set_x_pos (vset (x_pos s) particle x) s in
  let s := set_y_pos (vset (y_pos s) particle y) s in
  let '(a, s) := get_retraction_angle s particle in
  let s := set_directions (vset (directions s) particle a) s in
  let s := set_impact_times (vset (impact_times s) particle (time s)) s in
  do s <- compute_next_impact fuel s particle;
  reindex_particle s particle false.

(** The range-for of [explode_gate] runs over the vector it erases from.
    Its two iterators are taken before the first pass, so it makes one pass
    per element the vector had then, and pass [i] reads slot [i] of the
    vector's storage.  An erase moves the later elements one slot down and
    leaves the slots behind the new end as they were: [stale] holds those
    slots, so that the storage is [contents s direction ++ stale]. *)
Fixpoint retract_occupants (fuel passes i : nat) (stale : list nat) (s : Simulation)
    (direction : nat) : option Simulation :=
  match passes with
  | O => Some s
  | S passes =>
      let storage := contents s direction ++ stale in
      do particle <- nth_error storage i;
      do s <- retract_occupant fuel s particle direction;
      let stale := skipn (length (contents s direction)) storage in
      retract_occupants fuel passes (S i) stale s direction
  end.

Definition explode_gate (fuel : nat) (s : Simulation) (exp_particle direction : nat)
    : option Simulation :=
  do s <- retract_trigger fuel s exp_particle;
  retract_occupants fuel (length (contents s direction)) 0 [] s direction.

(** [size() > gate_capacities[direction] - 1] compares an unsigned size,
    converted to [double], with a [double]. *)
Definition check_gate_admission (fuel : nat) (s : Simulation) (particle direction : nat)
    : option Simulation :=
  if (flag s direction particle =? 0)%Z then
    if INR (length (contents s direction)) >? vget 0 (gate_capacities s) direction - 1 then
      explode_gate fuel s particle direction
    else
      let s := set_contents direction (contents s direction ++ [particle]) s in
      Some (set_flag direction particle 1%Z s)
  else Some s.

Definition measure (s : Simulation) : Simulation :=
  let s := set_measuring_times (measuring_times s ++ [time s]) s in
  set_total_left (total_left s ++ [in_left s]) s.

(** ** Stepper *)

(** The snapshot loop of [update]; only its effect on [last_written_time]
    is kept. *)
Fixpoint emit_snapshots (fuel : nat) (s : Simulation) (next_impact write_dt : R)
    : option Simulation :=
  if next_impact >? last_written_time s + write_dt then
    match fuel with
    | O => None
    | S fuel =>
        emit_snapshots fuel (set_last_written_time (last_written_time s + write_dt) s)
          next_impact write_dt
    end
  else Some s.

(** The repair of a planned position outside the domain.  The argument of
    [sgn] is the vector [next_x_pos], as in the source. *)
Definition repair_next_pos (s : Simulation) (particle : nat) : Simulation :=
  if negb (is_in_domain s (vget 0 (next_x_pos s) particle) (vget 0 (next_y_pos s) particle))
  then
    let s := set_next_x_pos
               (vset (next_x_pos s) particle
                  (IZR (sgn (next_x_pos s)) * (circle_distance s / 2 + circle_radius s))) s in
    set_next_y_pos (vset (next_y_pos s) particle 0) s
  else s.

(** The count of particles on the left, kept when a particle changes side. *)
Definition count_crossing (s : Simulation) (particle : nat) : Simulation :=
  if (px s particle >? 0) && (vget 0 (next_x_pos s) particle <? 0)
  then set_in_left (wrap64 (in_left s + 1)) s
  else if (px s particle <? 0) && (vget 0 (next_x_pos s) particle >? 0)
  then set_in_left (wrap64 (in_left s - 1)) s
  else s.

(** The particle takes its planned state and the clock moves to the impact. *)
Definition commit (s : Simulation) (particle : nat) (next_impact : R) : Simulation :=
  let s := set_x_pos (vset (x_pos s) particle (vget 0 (next_x_pos s) particle)) s in
  let s := set_y_pos (vset (y_pos s) particle (vget 0 (next_y_pos s) particle)) s in
  let s := set_directions (vset (directions s) particle (vget 0 (next_directions s) particle)) s in
  let s := set_impact_times (vset (impact_times s) particle next_impact) s in
  set_time next_impact s.

(** One pass of the loop over the two gates. *)
Definition gate_step (fuel : nat) (s : Simulation) (particle direction : nat)
    : option Simulation :=
  if is_in_gate s (px s particle) (py s particle) direction && is_going_in s particle
  then check_gate_admission fuel s particle direction
  else Some (check_gate_departure s particle direction).

Definition update (fuel : nat) (s : Simulation) (write_dt : R) : option Simulation :=
  do particle <- hd_error (sorted_indices s);
  let next_impact := vget 0 (next_impact_times s) particle in
  do s <- (if write_dt >? 0 then emit_snapshots fuel s next_impact write_dt else Some s);
  let s := repair_next_pos s particle in
  let s := count_crossing s particle in
  let s := commit s particle next_impact in
  do s <- gate_step fuel s particle 0;
  do s <- gate_step fuel s particle 1;
  do s <- compute_next_impact fuel s particle;
  do s <- reindex_particle s particle true;
  Some (measure s).

(** ** Start *)

Inductive exn : Type := invalid_argument | domain_error.

Inductive started : Type :=
| Started (s : Simulation)
| Thrown (e : exn)
| NoResult.

(** The two loops of [start]: place and plan each particle of a side. *)
Fixpoint init_particles (fuel : nat) (s : Simulation) (particles : list nat)
    (box_x_radius box_y_radius : R) (side : nat) : option Simulation :=
  match particles with
  | [] => Some s
  | particle :: particles =>
      do s <- reset_particle fuel s particle box_x_radius box_y_radius side;
      do s <- compute_next_impact fuel s particle;
      let s := if Nat.eqb side LEFT then set_in_left (wrap64 (in_left s + 1)) s else s in
      init_particles fuel s particles box_x_radius box_y_radius side
  end.

Definition start (fuel : nat) (s : Simulation) (left_ratio : R) : started :=
  let s := set_time 0 s in
  let s := set_last_written_time 0 s in
  let s := set_in_left 0%Z s in
  let box_x_radius := circle_distance s / 2 + circle_radius s * 2 in
  let box_y_radius := circle_radius s in
  if bridge_height s / 2 >=? box_y_radius then Thrown invalid_argument
  else if (left_ratio * IZR (num_particles s) <? 0)
          || (left_ratio * IZR (num_particles s) >? IZR (num_particles s))
  then Thrown domain_error
  else if distance_as_channel_length s && negb (gate_is_flat s) then Thrown domain_error
  else
    let num_left_particles := Z.to_nat (trunc (left_ratio * IZR (num_particles s))) in
    let n := Z.to_nat (num_particles s) in
    match init_particles fuel s (seq 0 num_left_particles) box_x_radius box_y_radius LEFT with
    | None => NoResult
    | Some s =>
        match init_particles fuel s (seq num_left_particles (n - num_left_particles))
                box_x_radius box_y_radius RIGHT with
        | None => NoResult
        | Some s => Started (measure (sort_indices s))
        end
    end.

(** ** Example configurations *)

(** A random device that draws the numbers of [l] in turn, then 0.5. *)
Definition device (l : list R) : nat -> R := fun n => nth n l 0.5.

(** The object after the constructor and [setup]: radius 1, distance 0.5,
    bridge height 1.2, hence bridge length 0.9 and [max_path] 5.7; arc
    gates of capacity 1; [n] particles, all members still zero. *)
Definition urns (draws : list R) (n : nat) : Simulation :=
  mkSimulation (Z.of_nat n) 1 1 1 0.5 1.2 false false false
    (-1.25) 1.25 5.7 0.9 [1; 1] 0 0 0%Z 0%Z
    (repeat 0 n) (repeat 0 n) (repeat 0 n) (repeat 0 n)
    (repeat 0 n) (repeat 0 n) (repeat 0 n) (repeat 0 n)
    [repeat 0%Z n; repeat 0%Z n] [[]; []] (repeat 0%nat n) [] [] (device draws) 0.

(** One particle whose planned position [(-3, 0)] is left of the left urn. *)
Definition stray : Simulation :=
  set_next_x_pos [-3] (set_x_pos [-1.25] (urns [] 1)).

(** ** What the planner and the scheduler leave alone *)

(** The members fixed by the constructor and [setup]. *)
Definition geometry (s : Simulation) :=
  (num_particles s, circle_radius s, circle_distance s, bridge_height s, bridge_length s,
   left_center_x s, right_center_x s, max_path s, gate_is_flat s,
   explosion_direction_is_random s, gate_capacities s, unif_real s).

(** [s'] has the geometry, the gate flags and the gate occupants of [s]. *)
Definition frame (s s' : Simulation) : Prop :=
  geometry s' = geometry s
  /\ gate_arrays s' = gate_arrays s
  /\ gate_contents s' = gate_contents s.

(** ** Invariants of the gates and reachable states *)

(** (I3) Each gate holds at most as many particles as its capacity. *)
Definition gate_bounded (s : Simulation) : Prop :=
  forall side, (side < 2)%nat ->
    INR (length (contents s side)) <= vget 0 (gate_capacities s) side.

(** (I4) A particle is flagged for a gate exactly when it is one of its
    occupants. *)
Definition flags_match_contents (s : Simulation) : Prop :=
  forall side particle, (side < 2)%nat ->
    flag s side particle = 1%Z <-> In particle (contents s side).

(** [s'] has the capacities of [s] and no gate of [s'] holds more particles
    than it does in [s]. *)
Definition no_fuller (s s' : Simulation) : Prop :=
  gate_capacities s' = gate_capacities s
  /\ forall side, (length (contents s' side) <= length (contents s side))%nat.

(** The states a sequence of calls of [update] leads to from [s0]. *)
Inductive reachable (s0 : Simulation) : Simulation -> Prop :=
| reach_here : reachable s0 s0
| reach_update (s s' : Simulation) (fuel : nat) (write_dt : R) :
    reachable s0 s -> update fuel s write_dt = Some s' -> reachable s0 s'.

(** One particle at the centre of the left urn, heading straight down. *)
Definition dropped : Simulation :=
  set_directions [- PI / 2] (set_x_pos [-1.25] (urns [] 1)).

(** Three particles on the axis of the urns, all heading right: 0 and 1 in
    the left urn at [x = -0.5] and [x = -0.6], 2 at the centre of the right
    urn.  [draws1] are the nine draws that make [start] place them so: per
    particle one for [x], one for [y] and one for the direction. *)
Definition draws1 : list R := [7 / 18; 0.5; 0.5; 11 / 30; 0.5; 0.5; 7 / 9; 0.5; 0.5].

(** After [start (2 / 3)]: each particle has its first impact planned;
    particles 0 and 1 will enter the left gate, particle 2 will hit the arc
    of the right urn. *)
Definition three : Simulation :=
  set_rng_state 9
  (set_total_left [2%Z] (set_measuring_times [0]
  (set_sorted_indices [0; 1; 2]%nat
  (set_in_left 2%Z
  (set_next_impact_times [0.25 + EPS; 0.35 + EPS; 1 - 5.7 * EPS]
  (set_next_directions [0; 0; PI]
  (set_next_x_pos [-0.25 + EPS; -0.25 + EPS; 2.25 - 5.7 * EPS]
  (set_x_pos [-0.5; -0.6; 1.25] (urns draws1 3))))))))).

(** After the first [update]: particle 0 is in the left gate and will cross
    the mid-line. *)
Definition three1 : Simulation :=
  set_total_left [2; 2]%Z (set_measuring_times [0; 0.25 + EPS]
  (set_sorted_indices [1; 0; 2]%nat
  (set_gate_contents [[0%nat]; []] (set_gate_arrays [[1; 0; 0]; [0; 0; 0]]%Z
  (set_next_impact_times [0.5 + 6.7 * EPS; 0.35 + EPS; 1 - 5.7 * EPS]
  (set_next_x_pos [6.7 * EPS; -0.25 + EPS; 2.25 - 5.7 * EPS]
  (set_impact_times [0.25 + EPS; 0; 0]
  (set_x_pos [-0.25 + EPS; -0.6; 1.25]
  (set_time (0.25 + EPS) three))))))))).

(** After the second [update]: particle 1 found the left gate full; both
    particles were turned back.  Particle 0, whose impact is the next one,
    is no longer in [sorted_indices], and particle 1 is there twice. *)
Definition three2 : Simulation :=
  set_total_left [2; 2; 2]%Z (set_measuring_times [0; 0.25 + EPS; 0.35 + EPS]
  (set_sorted_indices [1; 2; 1]%nat
  (set_next_impact_times [0.45 + 3 * EPS; 2.35 - 3.7 * EPS; 1 - 5.7 * EPS]
  (set_next_directions [PI; 0; PI]
  (set_next_x_pos [-0.25 - EPS; -2.25 + 5.7 * EPS; 2.25 - 5.7 * EPS]
  (set_impact_times [0.35 + EPS; 0.35 + EPS; 0]
  (set_directions [PI; PI; 0]
  (set_x_pos [-0.15 + EPS; -0.25 + EPS; 1.25]
  (set_time (0.35 + EPS) three1))))))))).

(** After the third [update]: the impact of particle 1 at the far arc. *)
Definition three3 : Simulation :=
  set_total_left [2; 2; 2; 2]%Z
  (set_measuring_times [0; 0.25 + EPS; 0.35 + EPS; 2.35 - 3.7 * EPS]
  (set_sorted_indices [2; 1; 1]%nat
  (set_next_impact_times [0.45 + 3 * EPS; 4.35 - 8.4 * EPS; 1 - 5.7 * EPS]
  (set_next_x_pos [-0.25 - EPS; -0.25 + EPS; 2.25 - 5.7 * EPS]
  (set_impact_times [0.35 + EPS; 2.35 - 3.7 * EPS; 0]
  (set_directions [PI; 0; 0]
  (set_x_pos [-0.15 + EPS; -2.25 + 5.7 * EPS; 1.25]
  (set_time (2.35 - 3.7 * EPS) three2)))))))).

(** After the fourth [update]: the impact of particle 2, planned for an
    earlier time. *)
Definition three4 : Simulation :=
  set_total_left [2; 2; 2; 2; 2]%Z
  (set_measuring_times [0; 0.25 + EPS; 0.35 + EPS; 2.35 - 3.7 * EPS; 1 - 5.7 * EPS]
  (set_sorted_indices [2; 1; 1]%nat
  (set_next_impact_times [0.45 + 3 * EPS; 4.35 - 8.4 * EPS; 3 - 10.4 * EPS]
  (set_next_x_pos [-0.25 - EPS; -0.25 + EPS; 0.25 - EPS]
  (set_impact_times [0.35 + EPS; 2.35 - 3.7 * EPS; 1 - 5.7 * EPS]
  (set_directions [PI; 0; PI]
  (set_x_pos [-0.15 + EPS; -2.25 + 5.7 * EPS; 2.25 - 5.7 * EPS]
  (set_time (1 - 5.7 * EPS) three3)))))))).

(** ** The outcome of [start] *)


(** The particle is in one of the urns, outside its gate and outside the
    bridge: the condition on which [reset_particle] stops sampling. *)
Definition placed (s : Simulation) (particle : nat) : Prop :=
  exists side,
    is_in_circle s (px s particle) (py s particle) side = true
    /\ is_in_gate s (px s particle) (py s particle) side = false
    /\ is_in_bridge s (px s particle) (py s particle) = false.

(** [s'] has the geometry of [s] and the positions of all particles but
    [particle]. *)
Definition others_kept (particle : nat) (s s' : Simulation) : Prop :=
  geometry s' = geometry s
  /\ forall p, p <> particle -> px s' p = px s p /\ py s' p = py s p.

(** The urns of [urns] with a flat gate and one particle at the origin. *)
Definition flat_urns : Simulation :=
  mkSimulation 1 1 1 1 0.5 1.2 false true false
    (-1.25) 1.25 5.7 0.9 [1; 1] 0 0 0%Z 0%Z
    [0] [0] [0] [0] [0] [0] [0] [0] [[0%Z]; [0%Z]] [[]; []] [0%nat] [] [] (device []) 0.

(** ** Points on the boundaries *)



(** On the circle of radius [circle_radius] around [(center_x, 0)]. *)
Definition on_circle (s : Simulation) (center_x : R) (q : R * R) : Prop :=
  (fst q - center_x) * (fst q - center_x) + snd q * snd q
  = circle_radius s * circle_radius s.




(** One particle on the axis, left of the mid-line, heading right. *)
Definition crossing : Simulation := set_x_pos [-0.25] (urns [] 1).

(** Three particles on the axis of the urns, all heading right: 0 and 1 in
    the left urn at [x = -0.5] and [x = -0.75 - 2 * EPS], 2 in the right urn
    at [x = 1.65].  Particle 1 reaches the left gate just after particle 0
    has left it over the mid-line, and before the impact of particle 0
    that would record this. *)
Definition draws2 : list R :=
  [7 / 18; 0.5; 0.5; 1 / 3 - 2 * EPS / 4.5; 0.5; 0.5; 13 / 15; 0.5; 0.5].

(** After [start (2 / 3)]. *)
Definition late : Simulation :=
  set_rng_state 9
  (set_total_left [2%Z] (set_measuring_times [0]
  (set_sorted_indices [0; 1; 2]%nat
  (set_in_left 2%Z
  (set_next_impact_times [0.25 + EPS; 0.5 + 3 * EPS; 0.6 - 5.7 * EPS]
  (set_next_directions [0; 0; PI]
  (set_next_x_pos [-0.25 + EPS; -0.25 + EPS; 2.25 - 5.7 * EPS]
  (set_x_pos [-0.5; -0.75 - 2 * EPS; 1.65] (urns draws2 3))))))))).

(** After the first [update]: particle 0 is in the left gate and will cross
    the mid-line at the time [0.5 + 6.7 * EPS]. *)
Definition late1 : Simulation :=
  set_total_left [2; 2]%Z (set_measuring_times [0; 0.25 + EPS]
  (set_sorted_indices [1; 0; 2]%nat
  (set_gate_contents [[0%nat]; []] (set_gate_arrays [[1; 0; 0]; [0; 0; 0]]%Z
  (set_next_impact_times [0.5 + 6.7 * EPS; 0.5 + 3 * EPS; 0.6 - 5.7 * EPS]
  (set_next_x_pos [6.7 * EPS; -0.25 + EPS; 2.25 - 5.7 * EPS]
  (set_impact_times [0.25 + EPS; 0; 0]
  (set_x_pos [-0.25 + EPS; -0.75 - 2 * EPS; 1.65]
  (set_time (0.25 + EPS) late))))))))).

(** After the second [update], at the time [0.5 + 3 * EPS]: particle 1
    found the left gate full and exploded it; particle 0, by then at
    [x = 3 * EPS], was taken out of [gate_contents]. *)
Definition late2 : Simulation :=
  set_total_left [2; 2; 2]%Z (set_measuring_times [0; 0.25 + EPS; 0.5 + 3 * EPS]
  (set_sorted_indices [2; 0; 1]%nat
  (set_gate_contents [[]; []]
  (set_next_impact_times [0.75 + EPS; 2.5 - 1.7 * EPS; 0.6 - 5.7 * EPS]
  (set_next_directions [0; 0; PI]
  (set_next_x_pos [0.25 + EPS; -2.25 + 5.7 * EPS; 2.25 - 5.7 * EPS]
  (set_impact_times [0.5 + 3 * EPS; 0.5 + 3 * EPS; 0]
  (set_directions [0; PI; 0]
  (set_x_pos [3 * EPS; -0.25 + EPS; 1.65]
  (set_time (0.5 + 3 * EPS) late1)))))))))).


(** [urns [] 1], whose particle is planned to be at the origin at the time
    0, after one [update]: the particle is in both gates and heads for the
    arc gate of the right urn. *)
Definition astride : Simulation :=
  set_total_left [0%Z] (set_measuring_times [0]
  (set_gate_contents [[0%nat]; [0%nat]] (set_gate_arrays [[1%Z]; [1%Z]]
  (set_next_impact_times [0.25 + EPS]
  (set_next_x_pos [0.25 + EPS] (urns [] 1)))))).

(** The object of the constructor and [setup] for overlapping circles at
    the distance -2 and a flat gate: the bridge has the length -1.6. *)
Definition overlapping : Simulation :=
  setup (new_Simulation 1 1.2 1 (-2) 1 1 false true (device [])).

(** ** What only [update], [start] and [measure] write *)


(** The state of the second [update] of [late1] when it reaches the gates:
    particle 1 is committed at the left gate, which holds particle 0. *)
Definition full_gate : Simulation :=
  set_impact_times [0.25 + EPS; 0.5 + 3 * EPS; 0]
  (set_x_pos [-0.25 + EPS; -0.25 + EPS; 1.65]
  (set_time (0.5 + 3 * EPS) late1)).

(** [full_gate] after the explosion of its left gate by particle 1. *)
Definition exploded : Simulation :=
  set_sorted_indices [1; 2; 0]%nat
  (set_gate_contents [[]; []]
  (set_next_impact_times [0.75 + EPS; 2.5 - 1.7 * EPS; 0.6 - 5.7 * EPS]
  (set_next_directions [0; 0; PI]
  (set_next_x_pos [0.25 + EPS; -2.25 + 5.7 * EPS; 2.25 - 5.7 * EPS]
  (set_impact_times [0.5 + 3 * EPS; 0.5 + 3 * EPS; 0]
  (set_directions [0; PI; 0]
  (set_x_pos [3 * EPS; -0.25 + EPS; 1.65] full_gate))))))).

(** The vectors of the gates have the shape [setup] gives them: two rows
    of flags, one flag per particle, and two lists of occupants. *)
Definition gates_shaped (s : Simulation) : Prop :=
  length (gate_arrays s) = 2%nat /\ length (gate_contents s) = 2%nat
  /\ forall side, (side < 2)%nat ->
       length (vget [] (gate_arrays s) side) = Z.to_nat (num_particles s).

(** [crossing] after its particle has been admitted to the left gate. *)
Definition admitted : Simulation :=
  set_gate_contents [[0%nat]; []] (set_gate_arrays [[1%Z]; [0%Z]] crossing).

(** ** The order of [sorted_indices] *)

(** Particle [i] is planned to hit no later than particle [j]. *)
Definition no_later (key : nat -> R) (i j : nat) : Prop := key i <= key j.

(** [find_index]: the position of the first occurrence of [particle] in
    [sorted_indices]; it throws [std::invalid_argument] when there is
    none. *)
Fixpoint find_first (particle : nat) (indices : list nat) : option nat :=
  match indices with
  | [] => None
  | p :: rest =>
      if Nat.eqb p particle then Some 0%nat
      else match find_first particle rest with
           | Some i => Some (S i)
           | None => None
           end
  end.

Definition find_index (s : Simulation) (particle : nat) : exn + nat :=
  match find_first particle (sorted_indices s) with
  | Some i => inr i
  | None => inl invalid_argument
  end.


(** [get_mass_spread]: the last count of the left urn against an even
    split; [total_left.back()] is undefined on an empty vector. *)
Definition get_mass_spread (s : Simulation) : option R :=
  match rev (total_left s) with
  | [] => None
  | count :: _ => Some (fabs (2 * IZR count - IZR (num_particles s)) / IZR (num_particles s))
  end.

(** * Properties *)

(** ** Comparisons of doubles *)

Lemma ltb_true_iff (x y : R) : (x <? y) = true <-> x < y.
Proof. unfold ltb; destruct (Rlt_dec x y); split; intros; try discriminate; tauto. Qed.

Lemma ltb_false_iff (x y : R) : (x <? y) = false <-> y <= x.
Proof. unfold ltb; destruct (Rlt_dec x y); split; intros; try discriminate; try lra; auto. Qed.

Lemma leb_true_iff (x y : R) : (x <=? y) = true <-> x <= y.
Proof. unfold leb; destruct (Rle_dec x y); split; intros; try discriminate; tauto. Qed.

Lemma leb_false_iff (x y : R) : (x <=? y) = false <-> y < x.
Proof. unfold leb; destruct (Rle_dec x y); split; intros; try discriminate; try lra; auto. Qed.

Lemma eqb_true_iff (x y : R) : (x =? y) = true <-> x = y.
Proof. unfold eqb; destruct (Req_dec_T x y); split; intros; try discriminate; tauto. Qed.

Lemma eqb_false_iff (x y : R) : (x =? y) = false <-> x <> y.
Proof. unfold eqb; destruct (Req_dec_T x y); split; intros; try discriminate; tauto. Qed.

Lemma ltb_true (x y : R) : x < y -> (x <? y) = true.
Proof. apply ltb_true_iff. Qed.

Lemma ltb_false (x y : R) : y <= x -> (x <? y) = false.
Proof. apply ltb_false_iff. Qed.

Lemma leb_true (x y : R) : x <= y -> (x <=? y) = true.
Proof. apply leb_true_iff. Qed.

Lemma leb_false (x y : R) : y < x -> (x <=? y) = false.
Proof. apply leb_false_iff. Qed.

Lemma eqb_true (x y : R) : x = y -> (x =? y) = true.
Proof. apply eqb_true_iff. Qed.

Lemma eqb_false (x y : R) : x <> y -> (x =? y) = false.
Proof. apply eqb_false_iff. Qed.

Lemma EPS_pos : 0 < EPS.
Proof. unfold EPS; lra. Qed.

Lemma PI_pos : 0 < PI.
Proof. exact PI_RGT_0. Qed.

(** ** Truncation and [fmod] *)

Lemma trunc_bounds (x : R) : Rabs (x - IZR (trunc x)) < 1.
Proof.
  unfold trunc. destruct (Rle_dec 0 x) as [H|H].
  - destruct (base_Int_part x) as [H1 H2]. apply Rabs_def1; lra.
  - destruct (base_Int_part (- x)) as [H1 H2].
    rewrite opp_IZR. apply Rabs_def1; lra.
Qed.

Lemma fmod_bound (x y : R) : 0 < y -> Rabs (fmod x y) < y.
Proof.
  intros Hy. unfold fmod.
  replace (x - IZR (trunc (x / y)) * y) with ((x / y - IZR (trunc (x / y))) * y)
    by (field; lra).
  rewrite Rabs_mult, (Rabs_pos_eq y) by lra.
  pose proof (trunc_bounds (x / y)) as Hb.
  pose proof (Rabs_pos (x / y - IZR (trunc (x / y)))) as Hp.
  nra.
Qed.

Lemma fmod_congruent (x y : R) : exists k : Z, fmod x y = x - IZR k * y.
Proof. exists (trunc (x / y)). reflexivity. Qed.

(** ** Reflection *)

(** C7.  Reflecting twice at the same normal gives the incoming angle back
    modulo [2 * PI]; the reflected angle is [(2 * n - a + PI)] reduced by
    [fmod], hence of absolute value below [2 * PI]. *)
Theorem reflection_involutive_mod_2PI (angle_in normal_angle : R) :
  (exists k : Z,
     get_reflection_angle (get_reflection_angle angle_in normal_angle) normal_angle
     = angle_in + IZR k * (2 * PI))
  /\ get_reflection_angle angle_in normal_angle
     = fmod (2 * normal_angle - angle_in + PI) (2 * PI)
  /\ Rabs (get_reflection_angle angle_in normal_angle) < 2 * PI.
Proof.
  split; [| split].
  - unfold get_reflection_angle.
    destruct (fmod_congruent (2 * normal_angle - angle_in + PI) (2 * PI)) as [k1 E1].
    rewrite E1.
    destruct (fmod_congruent
                (2 * normal_angle - (2 * normal_angle - angle_in + PI - IZR k1 * (2 * PI)) + PI)
                (2 * PI)) as [k2 E2].
    rewrite E2. exists (k1 - k2)%Z. rewrite minus_IZR. ring.
  - reflexivity.
  - apply fmod_bound. pose proof PI_pos. lra.
Qed.

(** ** Interpolation *)

(** C10.  [get_current_position] never divides by zero: it always has a
    result.  With equal impact times the result is the stored position
    and no division is made; otherwise the divisor
    [impact_times - next_impact_times] is not zero and the result is the
    interpolated position. *)
Theorem get_current_position_division_safe (s : Simulation) (particle : nat) :
  let it := vget 0 (impact_times s) particle in
  let nit := vget 0 (next_impact_times s) particle in
  get_current_position s particle <> None
  /\ (it = nit -> get_current_position s particle = Some (px s particle, py s particle))
  /\ (it <> nit ->
      it - nit <> 0
      /\ checked_div ((vget 0 (next_x_pos s) particle - px s particle) * (it - time s))
           (it - nit) <> None
      /\ get_current_position s particle
         = Some (px s particle
                 + (vget 0 (next_x_pos s) particle - px s particle) * (it - time s) / (it - nit),
                 py s particle
                 + (vget 0 (next_y_pos s) particle - py s particle) * (it - time s) / (it - nit))).
Proof.
  cbv zeta. unfold get_current_position, checked_div.
  destruct (vget 0 (impact_times s) particle =? vget 0 (next_impact_times s) particle) eqn:E.
  - apply eqb_true_iff in E. split; [discriminate |]. split; [reflexivity |].
    intros H. contradiction.
  - apply eqb_false_iff in E.
    rewrite (eqb_false (vget 0 (impact_times s) particle
                        - vget 0 (next_impact_times s) particle) 0) by lra.
    split; [discriminate |]. split; [intros H; contradiction |].
    intros _. split; [lra |]. split; [discriminate | reflexivity].
Qed.

(** ** The sign condition on the mid-line *)

Lemma sign_condition_at_zero (direction : nat) :
  (IZR (Z.of_nat direction * 2 - 1) * 0 >=? 0) = true.
Proof. apply leb_true. rewrite Rmult_0_r. lra. Qed.

Lemma is_going_in_at_zero (s : Simulation) (particle : nat) :
  px s particle = 0 -> is_going_in s particle = true.
Proof. intros H. unfold is_going_in. rewrite H. apply leb_true. lra. Qed.

(** ** Evaluation of concrete configurations *)

(** Unfolds the program and the containers, and leaves real arithmetic and
    the comparisons of doubles folded. *)
Ltac run :=
  cbv -[Rplus Rmult Rminus Ropp Rdiv Rinv IZR INR Rabs sqrt cos sin atan Rtrigo1.PI
        PI EPS Rlt_dec Rle_dec Req_dec_T Int_part ltb leb eqb fabs atan2 fmod trunc
        Rlt Rle Rge Rgt].

Ltac real :=
  unfold EPS, fabs, Rabs in *;
  repeat match goal with |- context [Rcase_abs ?x] => destruct (Rcase_abs x) end;
  pose proof PI_pos; first [ lra | nra ].

(** Decides one comparison of doubles whose operands are closed. *)
Ltac decide_comparison :=
  match goal with
  | |- context [ltb ?a ?b] =>
      first [ rewrite (ltb_true a b) by real | rewrite (ltb_false a b) by real ]
  | |- context [leb ?a ?b] =>
      first [ rewrite (leb_true a b) by real | rewrite (leb_false a b) by real ]
  | |- context [eqb ?a ?b] =>
      first [ rewrite (eqb_true a b) by real | rewrite (eqb_false a b) by real ]
  end; cbv beta iota.

Lemma fabs_leb_false (x c : R) : c < x \/ x < - c -> (fabs x <=? c) = false.
Proof.
  intros H. apply leb_false. unfold fabs.
  destruct H; [ pose proof (Rle_abs x) | pose proof (Rle_abs (- x)) as H1;
                rewrite Rabs_Ropp in H1 ]; lra.
Qed.

(** Two objects are equal when their members are. *)
Lemma mkSimulation_eq
    (a1 b1 : Z) (a2 b2 : Z) (a3 b3 : Z) (a4 b4 : R) (a5 b5 : R) (a6 b6 : R) (a7 b7 : bool)
    (a8 b8 : bool) (a9 b9 : bool) (a10 b10 : R) (a11 b11 : R) (a12 b12 : R) (a13 b13 : R)
    (a14 b14 : list R) (a15 b15 : R) (a16 b16 : R) (a17 b17 : Z) (a18 b18 : Z)
    (a19 b19 : list R) (a20 b20 : list R) (a21 b21 : list R) (a22 b22 : list R)
    (a23 b23 : list R) (a24 b24 : list R) (a25 b25 : list R) (a26 b26 : list R)
    (a27 b27 : list (list Z)) (a28 b28 : list (list nat)) (a29 b29 : list nat)
    (a30 b30 : list R) (a31 b31 : list Z) (a32 b32 : nat -> R) (a33 b33 : nat) :
  a1 = b1 -> a2 = b2 -> a3 = b3 -> a4 = b4 -> a5 = b5 -> a6 = b6 -> a7 = b7 -> a8 = b8 ->
  a9 = b9 -> a10 = b10 -> a11 = b11 -> a12 = b12 -> a13 = b13 -> a14 = b14 -> a15 = b15 ->
  a16 = b16 -> a17 = b17 -> a18 = b18 -> a19 = b19 -> a20 = b20 -> a21 = b21 ->
  a22 = b22 -> a23 = b23 -> a24 = b24 -> a25 = b25 -> a26 = b26 -> a27 = b27 ->
  a28 = b28 -> a29 = b29 -> a30 = b30 -> a31 = b31 -> a32 = b32 -> a33 = b33 ->
  mkSimulation
    a1 a2 a3 a4 a5 a6 a7 a8 a9 a10 a11 a12 a13 a14 a15 a16 a17 a18 a19 a20 a21 a22 a23 a24
    a25 a26 a27 a28 a29 a30 a31 a32 a33
  = mkSimulation
    b1 b2 b3 b4 b5 b6 b7 b8 b9 b10 b11 b12 b13 b14 b15 b16 b17 b18 b19 b20 b21 b22 b23 b24
    b25 b26 b27 b28 b29 b30 b31 b32 b33.
Proof. intros; subst; reflexivity. Qed.

(** Equality of two lists of doubles, element by element. *)
Ltac list_real :=
  repeat (apply (f_equal2 (@cons R)); [real |]); reflexivity.

(** Equality of two objects, member by member, without converting reals. *)
Ltac same_state :=
  apply mkSimulation_eq;
  lazymatch goal with
  | |- @eq R _ _ => real
  | |- @eq (list R) _ _ => list_real
  | |- _ => reflexivity
  end.

Lemma setup_urns (draws : list R) (n : nat) :
  setup (new_Simulation (Z.of_nat n) 1.2 1 0.5 1 1 false false (device draws)) = urns draws n.
Proof.
  assert (Hs : sqrt (1 ^ 2 - 1.2 ^ 2 / 4) = 0.8) by (apply sqrt_lem_1; lra).
  cbv -[Rplus Rmult Rminus Ropp Rdiv Rinv IZR sqrt pow Z.of_nat Z.to_nat repeat firstn Nat.sub
        length app device] in *.
  rewrite Hs, Nat2Z.id, !firstn_nil. cbn [length app]. rewrite Nat.sub_0_r.
  same_state.
Qed.

(** ** The repair of a stray particle *)

Lemma sgn_vector_nonempty (v : list R) : v <> [] -> sgn v = 1%Z.
Proof. destruct v; [congruence | reflexivity]. Qed.

Lemma vget_vset_same {A : Type} (d : A) (v : list A) (i : nat) (a : A) :
  (i < length v)%nat -> vget d (vset v i a) i = a.
Proof.
  unfold vget. revert i. induction v as [| b v IH]; intros [| i] H; simpl in *;
    try lia; auto. apply IH. lia.
Qed.

Lemma vget_vset_other {A : Type} (d : A) (v : list A) (i j : nat) (a : A) :
  i <> j -> vget d (vset v i a) j = vget d v j.
Proof.
  unfold vget. revert i j. induction v as [| b v IH]; intros [| i] [| j] H; simpl;
    try congruence; auto.
Qed.

Lemma vset_length {A : Type} (v : list A) (i : nat) (a : A) :
  length (vset v i a) = length v.
Proof. revert i. induction v as [| b v IH]; intros [| i]; simpl; auto. Qed.

(** Whatever the sign of the stray coordinate, the repair puts the particle
    at the centre of the right urn. *)
Lemma repair_next_pos_goes_right (s : Simulation) (particle : nat) :
  (particle < length (next_x_pos s))%nat ->
  is_in_domain s (vget 0 (next_x_pos s) particle) (vget 0 (next_y_pos s) particle) = false ->
  vget 0 (next_x_pos (repair_next_pos s particle)) particle
  = circle_distance s / 2 + circle_radius s.
Proof.
  intros Hp Hd. unfold repair_next_pos. rewrite Hd. simpl.
  rewrite vget_vset_same by exact Hp.
  rewrite sgn_vector_nonempty; [lra |].
  destruct (next_x_pos s); simpl in *; [lia | congruence].
Qed.

(** C3, at a stray particle on the left: its planned [x] is negative, the
    position is outside the domain, and the repair moves it to the centre of
    the right urn, not of the left one. *)
Theorem repair_of_left_stray_goes_right :
  vget 0 (next_x_pos stray) 0 = -3
  /\ sgn (vget 0 (next_x_pos stray) 0) = (-1)%Z
  /\ is_in_domain stray (-3) 0 = false
  /\ vget 0 (next_x_pos (repair_next_pos stray 0)) 0 = right_center_x stray
  /\ vget 0 (next_y_pos (repair_next_pos stray 0)) 0 = 0
  /\ right_center_x stray = 1.25 /\ left_center_x stray = -1.25.
Proof.
  assert (Hd : is_in_domain stray (-3) 0 = false).
  { run. rewrite (fabs_leb_false (-3)) by lra. cbv beta iota.
    repeat decide_comparison. reflexivity. }
  split; [reflexivity | split; [| split; [exact Hd | split; [| split; [| split]]]]].
  - unfold sgn; simpl. rewrite (ltb_false 0 (-3)), (ltb_true (-3) 0) by lra. reflexivity.
  - rewrite repair_next_pos_goes_right; [run; lra | simpl; lia | exact Hd].
  - unfold repair_next_pos. change (vget 0 (next_x_pos stray) 0) with (-3).
    change (vget 0 (next_y_pos stray) 0) with 0. rewrite Hd. reflexivity.
  - run; lra.
  - run; lra.
Qed.

(** ** The preconditions of [start] *)



(** ** Frame of the planner and of the scheduler *)

Lemma frame_refl (s : Simulation) : frame s s.
Proof. repeat split. Qed.

Lemma frame_trans (s1 s2 s3 : Simulation) : frame s1 s2 -> frame s2 s3 -> frame s1 s3.
Proof.
  intros (A1 & B1 & C1) (A2 & B2 & C2). repeat split; congruence.
Qed.

Ltac frame_step := apply frame_refl || (repeat split; reflexivity).

Lemma reset_loop_frame (fuel : nat) :
  forall s particle bx by_ direction s',
    reset_loop fuel s particle bx by_ direction = Some s' -> frame s s'.
Proof.
  induction fuel as [| fuel IH]; intros s particle bx by_ direction s' H; simpl in H;
    destruct (negb _ || _ || _); try discriminate;
    try (injection H as <-; apply frame_refl).
  apply IH in H. eapply frame_trans; [| exact H]. frame_step.
Qed.

Lemma reset_particle_frame (fuel : nat) (s : Simulation) (particle : nat) (bx by_ : R)
    (direction : nat) (s' : Simulation) :
  reset_particle fuel s particle bx by_ direction = Some s' -> frame s s'.
Proof.
  unfold reset_particle. intros H.
  destruct (reset_loop _ _ _ _ _ _) as [s1 |] eqn:E; [| discriminate].
  apply reset_loop_frame in E. simpl in H. injection H as <-.
  eapply frame_trans; [| eapply frame_trans; [exact E |]]; frame_step.
Qed.

Lemma compute_next_impact_frame (fuel : nat) :
  forall s particle s', compute_next_impact fuel s particle = Some s' -> frame s s'.
Proof.
  induction fuel as [| fuel IH]; intros s particle s' H; simpl in H;
    destruct (earliest_impact s particle) as [next_time next_angle];
    destruct (next_time =? max_path s); try discriminate;
    try (injection H as <-; frame_step).
  destruct (reset_particle _ _ _ _ _ _) as [s1 |] eqn:E; [| discriminate].
  apply reset_particle_frame in E. apply IH in H.
  eapply frame_trans; [| exact H]. eapply frame_trans; [| exact E]. frame_step.
Qed.

Lemma insert_index_frame (s : Simulation) (particle : nat) (s' : Simulation) :
  insert_index s particle = Some s' -> frame s s'.
Proof.
  unfold insert_index. intros H.
  destruct (insert_search _ _ _ _ _ _) as [l |]; [| discriminate].
  destruct (l <=? length (sorted_indices s))%nat; [| discriminate].
  injection H as <-. frame_step.
Qed.

Lemma reindex_particle_frame (s : Simulation) (particle : nat) (was_minimum : bool)
    (s' : Simulation) :
  reindex_particle s particle was_minimum = Some s' -> frame s s'.
Proof.
  unfold reindex_particle. intros H. destruct was_minimum.
  - destruct (sorted_indices s) as [| p rest] eqn:E; [discriminate |].
    apply insert_index_frame in H. eapply frame_trans; [| exact H]. frame_step.
  - apply insert_index_frame in H. eapply frame_trans; [| exact H]. frame_step.
Qed.

Lemma get_retraction_angle_frame (s : Simulation) (particle : nat) :
  frame s (snd (get_retraction_angle s particle)).
Proof.
  unfold get_retraction_angle.
  destruct (explosion_direction_is_random s); [frame_step |].
  destruct (_ <? _); frame_step.
Qed.

Lemma retract_trigger_frame (fuel : nat) :
  forall s exp_particle s', retract_trigger fuel s exp_particle = Some s' -> frame s s'.
Proof.
  induction fuel as [| fuel IH]; intros s exp_particle s' H; simpl in H; [discriminate |].
  pose proof (get_retraction_angle_frame s exp_particle) as Ha.
  destruct (get_retraction_angle s exp_particle) as [a s1]. simpl in Ha.
  destruct (compute_next_impact _ _ _) as [s2 |] eqn:E; [| discriminate].
  apply compute_next_impact_frame in E.
  assert (F : frame s s2).
  { eapply frame_trans; [exact Ha |]. eapply frame_trans; [| exact E]. frame_step. }
  destruct (negb _).
  - apply IH in H. eapply frame_trans; eauto.
  - injection H as <-. exact F.
Qed.

Lemma emit_snapshots_frame (fuel : nat) :
  forall s next_impact write_dt s',
    emit_snapshots fuel s next_impact write_dt = Some s' -> frame s s'.
Proof.
  induction fuel as [| fuel IH]; intros s next_impact write_dt s' H; simpl in H;
    destruct (_ <? _); try discriminate; try (injection H as <-; apply frame_refl).
  apply IH in H. eapply frame_trans; [| exact H]. frame_step.
Qed.

(** ** (I3) Occupancy stays within the capacity *)

Lemma list_remove_length (particle : nat) (l : list nat) :
  (length (list_remove particle l) <= length l)%nat.
Proof. unfold list_remove. apply filter_length_le. Qed.

Lemma vget_vset_cases {A : Type} (d : A) (v : list A) (i j : nat) (a : A) :
  (i = j /\ vget d (vset v i a) j = a) \/ vget d (vset v i a) j = vget d v j.
Proof.
  destruct (Nat.eq_dec i j) as [-> | Hij].
  - destruct (Nat.lt_ge_cases j (length v)) as [H | H].
    + left. split; [reflexivity | apply vget_vset_same; exact H].
    + right. unfold vget. rewrite !nth_overflow; auto. now rewrite vset_length.
  - right. apply vget_vset_other. exact Hij.
Qed.

Lemma no_fuller_refl (s : Simulation) : no_fuller s s.
Proof. split; auto. Qed.

Lemma no_fuller_trans (s1 s2 s3 : Simulation) :
  no_fuller s1 s2 -> no_fuller s2 s3 -> no_fuller s1 s3.
Proof.
  intros [A1 B1] [A2 B2]. split; [congruence |].
  intros side. specialize (B1 side). specialize (B2 side). lia.
Qed.

Lemma frame_no_fuller (s s' : Simulation) : frame s s' -> no_fuller s s'.
Proof.
  intros (G & _ & C). split.
  - unfold geometry in G. congruence.
  - intros side. unfold contents. rewrite C. lia.
Qed.

Lemma no_fuller_bounded (s s' : Simulation) :
  no_fuller s s' -> gate_bounded s -> gate_bounded s'.
Proof.
  intros [A B] H side Hs. rewrite A. specialize (H side Hs). specialize (B side).
  apply le_INR in B. lra.
Qed.

Lemma erase_remove_no_fuller (direction particle : nat) (s : Simulation) :
  no_fuller s (erase_remove direction particle s).
Proof.
  split; [reflexivity |]. intros side. unfold erase_remove, set_contents, contents. simpl.
  destruct (vget_vset_cases [] (gate_contents s) direction side
              (list_remove particle (vget [] (gate_contents s) direction)))
    as [[-> E] | E]; rewrite E; [apply list_remove_length | lia].
Qed.

Lemma set_flag_no_fuller (direction particle : nat) (v : Z) (s : Simulation) :
  no_fuller s (set_flag direction particle v s).
Proof. split; [reflexivity | intros side; apply Nat.le_refl]. Qed.

Lemma check_gate_departure_no_fuller (s : Simulation) (particle direction : nat) :
  no_fuller s (check_gate_departure s particle direction).
Proof.
  unfold check_gate_departure. destruct (_ =? _)%Z; [| apply no_fuller_refl].
  eapply no_fuller_trans; [apply erase_remove_no_fuller | apply set_flag_no_fuller].
Qed.

Lemma retract_occupant_no_fuller (fuel : nat) (s : Simulation) (particle direction : nat)
    (s' : Simulation) :
  retract_occupant fuel s particle direction = Some s' -> no_fuller s s'.
Proof.
  unfold retract_occupant.
  destruct (get_current_position s particle) as [[x y] |]; [| intros H; discriminate H].
  set (s1 := if negb (is_in_domain s x y) then s
             else if negb (is_in_gate s x y direction)
                  then erase_remove direction particle s else s).
  assert (F1 : no_fuller s s1).
  { subst s1. destruct (negb _); [apply no_fuller_refl |].
    destruct (negb _); [apply erase_remove_no_fuller | apply no_fuller_refl]. }
  clearbody s1. intros H.
  pose proof (get_retraction_angle_frame
                (set_y_pos (vset (y_pos (set_x_pos (vset (x_pos s1) particle x) s1)) particle y)
                   (set_x_pos (vset (x_pos s1) particle x) s1)) particle) as Ha.
  destruct (get_retraction_angle _ particle) as [a s2]. simpl in Ha.
  destruct (compute_next_impact _ _ _) as [s3 |] eqn:E; [| discriminate].
  apply compute_next_impact_frame in E. apply reindex_particle_frame in H.
  eapply no_fuller_trans; [exact F1 |]. apply frame_no_fuller.
  eapply frame_trans; [| exact H]. eapply frame_trans; [| exact E].
  eapply frame_trans; [| eapply frame_trans; [exact Ha |]]; frame_step.
Qed.

Lemma retract_occupants_no_fuller (fuel passes : nat) :
  forall i stale s direction s',
    retract_occupants fuel passes i stale s direction = Some s' -> no_fuller s s'.
Proof.
  induction passes as [| passes IH]; intros i stale s direction s' H; simpl in H.
  - injection H as <-. apply no_fuller_refl.
  - destruct (nth_error _ i) as [particle |]; [| discriminate].
    destruct (retract_occupant _ _ _ _) as [s1 |] eqn:E; [| discriminate].
    apply retract_occupant_no_fuller in E. apply IH in H.
    eapply no_fuller_trans; eauto.
Qed.

(** [explode_gate] never adds a particle to a gate. *)
Lemma explode_gate_no_fuller (fuel : nat) (s : Simulation) (exp_particle direction : nat)
    (s' : Simulation) :
  explode_gate fuel s exp_particle direction = Some s' -> no_fuller s s'.
Proof.
  unfold explode_gate. intros H.
  destruct (retract_trigger _ _ _) as [s1 |] eqn:E; [| discriminate].
  apply retract_trigger_frame, frame_no_fuller in E.
  apply retract_occupants_no_fuller in H. eapply no_fuller_trans; eauto.
Qed.

(** [check_gate_admission] either adds no particle, or adds the arriving
    one to a gate whose occupancy was strictly below its capacity. *)
Lemma check_gate_admission_cases (fuel : nat) (s : Simulation) (particle direction : nat)
    (s' : Simulation) :
  check_gate_admission fuel s particle direction = Some s' ->
  no_fuller s s'
  \/ (INR (length (contents s direction)) < vget 0 (gate_capacities s) direction
      /\ gate_capacities s' = gate_capacities s
      /\ forall side,
           (side = direction /\ contents s' side = contents s direction ++ [particle])
           \/ contents s' side = contents s side).
Proof.
  unfold check_gate_admission. intros H.
  destruct (_ =? _)%Z; [| injection H as <-; left; apply no_fuller_refl].
  destruct (_ >? _) eqn:Hc.
  - left. eapply explode_gate_no_fuller; eauto.
  - injection H as <-. right. apply ltb_false_iff in Hc. split; [| split].
    + lra.
    + reflexivity.
    + intros side. unfold set_flag, set_contents, contents. simpl.
      destruct (vget_vset_cases [] (gate_contents s) direction side
                  (vget [] (gate_contents s) direction ++ [particle])) as [[-> E] | E];
        rewrite E; auto.
Qed.

Lemma check_gate_admission_bounded (fuel : nat) (s : Simulation) (particle direction : nat)
    (s' : Simulation) :
  check_gate_admission fuel s particle direction = Some s' ->
  gate_bounded s -> gate_bounded s'.
Proof.
  intros H Hb. destruct (check_gate_admission_cases _ _ _ _ _ H) as [F | (Hlt & Hc & Hs)].
  - eapply no_fuller_bounded; eauto.
  - intros side Hside. rewrite Hc. destruct (Hs side) as [[-> E] | E]; rewrite E.
    + rewrite length_app, plus_INR. simpl.
      enough (INR (length (contents s direction)) <= vget 0 (gate_capacities s) direction - 1)
        by lra.
      unfold check_gate_admission in H.
      destruct (_ =? _)%Z; [| injection H as <-].
      * destruct (_ >? _) eqn:Hgt; [| apply ltb_false_iff in Hgt; exact Hgt].
        exfalso. apply explode_gate_no_fuller in H. destruct H as [_ H].
        specialize (H direction). rewrite E, length_app in H. simpl in H. lia.
      * exfalso. apply (f_equal (@length nat)) in E. rewrite length_app in E. simpl in E. lia.
    + apply Hb. exact Hside.
Qed.

Lemma gate_step_bounded (fuel : nat) (s : Simulation) (particle direction : nat)
    (s' : Simulation) :
  gate_step fuel s particle direction = Some s' -> gate_bounded s -> gate_bounded s'.
Proof.
  unfold gate_step. destruct (_ && _).
  - apply check_gate_admission_bounded.
  - intros H. injection H as <-.
    apply no_fuller_bounded, check_gate_departure_no_fuller.
Qed.

Lemma update_bounded (fuel : nat) (s : Simulation) (write_dt : R) (s' : Simulation) :
  update fuel s write_dt = Some s' -> gate_bounded s -> gate_bounded s'.
Proof.
  unfold update. intros H Hb.
  destruct (hd_error (sorted_indices s)) as [particle |]; [| discriminate].
  destruct (if write_dt >? 0 then _ else _) as [s1 |] eqn:E1; [| discriminate].
  assert (F1 : frame s s1).
  { destruct (write_dt >? 0); [eapply emit_snapshots_frame; eauto |].
    injection E1 as <-. apply frame_refl. }
  set (s2 := commit _ _ _) in H.
  assert (F2 : frame s1 s2).
  { subst s2. unfold commit, count_crossing, repair_next_pos.
    destruct (negb _); destruct (_ && _); try destruct (_ && _); frame_step. }
  clearbody s2.
  destruct (gate_step fuel s2 particle 0) as [s3 |] eqn:E3; [| discriminate].
  destruct (gate_step fuel s3 particle 1) as [s4 |] eqn:E4; [| discriminate].
  destruct (compute_next_impact fuel s4 particle) as [s5 |] eqn:E5; [| discriminate].
  destruct (reindex_particle s5 particle true) as [s6 |] eqn:E6; [| discriminate].
  injection H as <-.
  apply compute_next_impact_frame in E5. apply reindex_particle_frame in E6.
  assert (B2 : gate_bounded s2).
  { eapply no_fuller_bounded; [apply frame_no_fuller, (frame_trans _ _ _ F1 F2) | exact Hb]. }
  pose proof (gate_step_bounded _ _ _ _ _ E3 B2) as B3.
  pose proof (gate_step_bounded _ _ _ _ _ E4 B3) as B4.
  eapply no_fuller_bounded; [| exact B4]. apply frame_no_fuller.
  eapply frame_trans; [exact E5 |]. eapply frame_trans; [exact E6 |]. frame_step.
Qed.

(** C1.  In every state reached by calls of [update] from a state whose
    gates are within their capacities, each gate holds at most as many
    particles as its capacity. *)
Theorem gate_occupancy_bounded (s0 s : Simulation) :
  gate_bounded s0 -> reachable s0 s -> gate_bounded s.
Proof.
  intros H0 Hr. induction Hr as [| s s' fuel write_dt _ IH Hu]; [exact H0 |].
  eapply update_bounded; eauto.
Qed.

(** ** Angles *)

Lemma trunc_eq (x : R) (k : Z) : 0 <= x -> IZR k <= x < IZR k + 1 -> trunc x = k.
Proof.
  intros H0 H. unfold trunc. destruct (Rle_dec 0 x); [| contradiction].
  symmetry. apply Int_part_spec. lra.
Qed.

Lemma fmod_eq (x y : R) (k : Z) :
  0 < y -> 0 <= x -> IZR k * y <= x < (IZR k + 1) * y -> fmod x y = x - IZR k * y.
Proof.
  intros Hy Hx H. unfold fmod. rewrite (trunc_eq (x / y) k); [reflexivity | |].
  - apply Rmult_le_pos; [lra | left; apply Rinv_0_lt_compat; lra].
  - split.
    + apply Rmult_le_reg_r with y; [lra |]. unfold Rdiv. rewrite Rmult_assoc, Rinv_l; lra.
    + apply Rmult_lt_reg_r with y; [lra |]. unfold Rdiv. rewrite Rmult_assoc, Rinv_l; lra.
Qed.

Lemma cos_down : cos (- PI / 2) = 0.
Proof. replace (- PI / 2) with (- (PI / 2)) by lra. rewrite cos_neg. exact cos_PI2. Qed.

Lemma sin_down : sin (- PI / 2) = -1.
Proof. replace (- PI / 2) with (- (PI / 2)) by lra. rewrite sin_neg. unfold PI. rewrite sin_PI2. lra. Qed.

Lemma cos_PI_d : cos PI = -1.
Proof. exact cos_PI. Qed.

Lemma sin_PI_d : sin PI = 0.
Proof. exact sin_PI. Qed.

Lemma atan2_up (y x : R) : x = 0 -> 0 < y -> atan2 y x = PI / 2.
Proof.
  intros -> Hy. unfold atan2.
  destruct (Rlt_dec 0 0); [lra |]. destruct (Rlt_dec 0 y); [reflexivity | lra].
Qed.

Lemma atan2_right (y x : R) : y = 0 -> 0 < x -> atan2 y x = 0.
Proof.
  intros -> Hx. unfold atan2. destruct (Rlt_dec 0 x); [| lra].
  unfold Rdiv. rewrite Rmult_0_l. exact atan_0.
Qed.

Lemma atan2_left (y x : R) : y = 0 -> x < 0 -> atan2 y x = PI.
Proof.
  intros -> Hx. unfold atan2. destruct (Rlt_dec 0 x); [lra |].
  destruct (Rlt_dec x 0); [| lra]. destruct (Rle_dec 0 0); [| lra].
  unfold Rdiv. rewrite Rmult_0_l, atan_0. lra.
Qed.

Lemma div_neg_pos (n d : R) : n < 0 -> 0 < d -> n / d < 0.
Proof.
  intros Hn Hd. pose proof (Rinv_0_lt_compat d Hd). unfold Rdiv. nra.
Qed.

Lemma div_zero (n : R) : n / 0 = 0.
Proof. unfold Rdiv. rewrite Rinv_0. ring. Qed.

(** ** The planner, once the earliest impact is known *)

Lemma compute_next_impact_planned (fuel : nat) (s : Simulation) (particle : nat)
    (next_time next_angle : R) :
  earliest_impact s particle = (next_time, next_angle) ->
  next_time <> max_path s ->
  compute_next_impact fuel s particle = Some (plan_impact s particle next_time next_angle).
Proof.
  intros H Hne. destruct fuel; simpl; rewrite H, (eqb_false _ _ Hne); reflexivity.
Qed.

Lemma plan_impact_next (s : Simulation) (particle : nat) (next_time next_angle : R) :
  next_x_pos (plan_impact s particle next_time next_angle)
  = vset (next_x_pos s) particle (px s particle + next_time * cos (dir s particle))
  /\ next_y_pos (plan_impact s particle next_time next_angle)
     = vset (next_y_pos s) particle (py s particle + next_time * sin (dir s particle))
  /\ next_impact_times (plan_impact s particle next_time next_angle)
     = vset (next_impact_times s) particle (time s + next_time)
  /\ next_directions (plan_impact s particle next_time next_angle)
     = vset (next_directions s) particle next_angle.
Proof. repeat split. Qed.

(** ** A particle dropped from the centre of the left urn *)

Section Drop.

Variables (s : Simulation) (particle : nat).

Hypothesis HR : 0 < circle_radius s.
Hypothesis Hh : 0 < bridge_height s.
Hypothesis HD : 0 <= circle_distance s.
Hypothesis HL : 0 < bridge_length s < circle_distance s + 2 * circle_radius s.
Hypothesis Hl : left_center_x s = - circle_distance s / 2 - circle_radius s.
Hypothesis Hr : right_center_x s = circle_distance s / 2 + circle_radius s.
Hypothesis Hm : max_path s = circle_distance s + bridge_height s + circle_radius s * 4.
Hypothesis He : EPS * max_path s < circle_radius s.
Hypothesis Hx : px s particle = left_center_x s.
Hypothesis Hy : py s particle = 0.
Hypothesis Hd : dir s particle = - PI / 2.

Lemma drop_max_path_pos : 0 < max_path s.
Proof. lra. Qed.

Lemma drop_not_in_bridge (x y : R) : x = left_center_x s -> is_in_bridge s x y = false.
Proof.
  intros ->. unfold is_in_bridge. rewrite fabs_leb_false; [reflexivity |]. right. lra.
Qed.

Lemma drop_ratio : EPS < circle_radius s / max_path s < 1.
Proof.
  pose proof drop_max_path_pos as Hmp. split.
  - apply Rmult_lt_reg_r with (max_path s); [lra |].
    unfold Rdiv. rewrite Rmult_assoc, Rinv_l; lra.
  - apply Rmult_lt_reg_r with (max_path s); [lra |].
    unfold Rdiv. rewrite Rmult_assoc, Rinv_l; lra.
Qed.

Lemma drop_bridge (a : R) : time_to_hit_bridge s particle a = (max_path s, a).
Proof.
  pose proof drop_max_path_pos as Hmp.
  unfold time_to_hit_bridge. rewrite Hd, cos_down, sin_down, Hx, Hy.
  set (denom := max_path s * 0 * 0 - max_path s * -1 * bridge_length s).
  assert (Hden : 0 < denom) by (unfold denom; nra).
  assert (Hu1 : ((- bridge_length s / 2 - left_center_x s) * (max_path s * -1)
                 - (- bridge_height s / 2 - 0) * (max_path s * 0)) / denom < 0).
  { apply div_neg_pos; [| exact Hden]. rewrite Hl. nra. }
  assert (Hu2 : ((- bridge_length s / 2 - left_center_x s) * (max_path s * -1)
                 - (bridge_height s / 2 - 0) * (max_path s * 0)) / denom < 0).
  { apply div_neg_pos; [| exact Hden]. rewrite Hl. nra. }
  rewrite (leb_false 0 _ Hu1), andb_false_r. cbn [andb]. cbv beta iota.
  rewrite (leb_false 0 _ Hu2), andb_false_r. cbn [andb]. cbv beta iota.
  apply f_equal2; [lra | reflexivity].
Qed.

(** The roots against the left circle: the ray leaves the centre. *)
Lemma drop_roots_left (t1 t2 : R) :
  circle_intersections s particle (left_center_x s) t1 t2
  = (- (circle_radius s / max_path s), circle_radius s / max_path s).
Proof.
  pose proof drop_max_path_pos as Hmp.
  unfold circle_intersections. rewrite Hd, cos_down, sin_down, Hx, Hy.
  match goal with |- context [sqrt ?d] =>
    assert (HDv : d = (2 * (max_path s / circle_radius s)) * (2 * (max_path s / circle_radius s)))
      by (field; lra);
    rewrite !HDv
  end.
  assert (Hq : 0 < max_path s / circle_radius s).
  { apply Rmult_lt_0_compat; [lra | apply Rinv_0_lt_compat; lra]. }
  rewrite sqrt_square by lra.
  rewrite leb_true by nra.
  apply f_equal2; field; lra.
Qed.

(** No root against the right circle: the vertical ray stays left of it. *)
Lemma drop_roots_right (t1 t2 : R) :
  circle_intersections s particle (right_center_x s) t1 t2 = (t1, t2).
Proof.
  pose proof drop_max_path_pos as Hmp.
  unfold circle_intersections. rewrite Hd, cos_down, sin_down, Hx, Hy, Hl, Hr.
  match goal with |- context [leb 0 ?d] =>
    assert (HDv : d < 0); [| rewrite (leb_false 0 d HDv); reflexivity]
  end.
  match goal with |- ?d < 0 =>
    replace d with
      (- (4 * (max_path s * max_path s)
          * ((circle_distance s + 2 * circle_radius s) * (circle_distance s + 2 * circle_radius s)
             - circle_radius s * circle_radius s))
       / (circle_radius s * circle_radius s * (circle_radius s * circle_radius s)))
      by (field; lra)
  end.
  assert (H1 : 0 < max_path s * max_path s) by nra.
  assert (H2 : 0 < (circle_distance s + 2 * circle_radius s)
                   * (circle_distance s + 2 * circle_radius s)
                   - circle_radius s * circle_radius s) by nra.
  assert (H3 : 0 < circle_radius s * circle_radius s) by nra.
  apply div_neg_pos; [| nra].
  pose proof (Rmult_lt_0_compat _ _ H1 H2). lra.
Qed.

Lemma drop_circle_left (a : R) :
  time_to_hit_circle s particle (left_center_x s) a
  = ((circle_radius s / max_path s - EPS) * max_path s, PI / 2).
Proof.
  pose proof drop_max_path_pos as Hmp. pose proof drop_ratio as [Hq1 Hq2].
  pose proof EPS_pos as Hep.
  unfold time_to_hit_circle. rewrite drop_roots_left.
  rewrite (ltb_false EPS (- (circle_radius s / max_path s))) by lra.
  cbn [andb]. cbv beta iota.
  rewrite (ltb_true EPS _ Hq1), (ltb_true _ 1 Hq2). cbn [andb]. cbv beta iota.
  rewrite Hd, cos_down, sin_down, Hx, Hy.
  rewrite drop_not_in_bridge by ring. cbn [negb]. cbv beta iota.
  rewrite atan2_up; [reflexivity | ring |].
  replace (0 - (0 + circle_radius s / max_path s * (max_path s * -1)))
    with (circle_radius s) by (field; lra).
  exact HR.
Qed.

Lemma drop_circle_right (a : R) :
  time_to_hit_circle s particle (right_center_x s) a = (max_path s, a).
Proof.
  unfold time_to_hit_circle. rewrite drop_roots_right.
  rewrite (ltb_false EPS (-1)) by (pose proof EPS_pos; lra).
  cbn [andb]. cbv beta iota. apply f_equal2; [lra | reflexivity].
Qed.

Lemma drop_gate : time_to_hit_gate s particle = max_path s.
Proof.
  pose proof drop_max_path_pos as Hmp. pose proof drop_ratio as [Hq1 Hq2].
  pose proof EPS_pos as Hep.
  unfold time_to_hit_gate. destruct (gate_is_flat s).
  - rewrite Hd, cos_down, !div_zero. rewrite !(ltb_false 0 0) by lra. reflexivity.
  - unfold gate_arc_pass. cbn [Nat.eqb RIGHT]. rewrite drop_roots_left.
    rewrite (ltb_false EPS (- (circle_radius s / max_path s))) by lra.
    cbn [andb]. cbv beta iota.
    rewrite (ltb_true EPS _ Hq1), (ltb_true _ 1 Hq2). cbn [andb]. cbv beta iota.
    rewrite Hd, cos_down, sin_down, Hx, Hy.
    rewrite drop_not_in_bridge by ring. cbv beta iota.
    rewrite drop_roots_right.
    rewrite (ltb_false EPS (- (circle_radius s / max_path s))) by lra.
    cbn [andb]. cbv beta iota.
    rewrite (ltb_true EPS _ Hq1), (ltb_true _ 1 Hq2). cbn [andb]. cbv beta iota.
    rewrite drop_not_in_bridge by ring. cbv beta iota. lra.
Qed.

Lemma drop_middle : time_to_hit_middle s particle = max_path s.
Proof.
  unfold time_to_hit_middle. rewrite Hd, cos_down, sin_down.
  replace (max_path s * 0 * bridge_height s - max_path s * -1 * 0) with 0 by ring.
  rewrite div_zero, !Rmult_0_r.
  rewrite (ltb_false EPS 0) by (pose proof EPS_pos; lra).
  cbn [andb]. cbv beta iota. lra.
Qed.

Lemma reflect_down_at_bottom : get_reflection_angle (- PI / 2) (PI / 2) = PI / 2.
Proof.
  pose proof PI_pos as Hpi. unfold get_reflection_angle.
  rewrite (fmod_eq _ _ 1); lra.
Qed.

Lemma drop_earliest_impact :
  earliest_impact s particle = (circle_radius s - EPS * max_path s, PI / 2).
Proof.
  pose proof drop_max_path_pos as Hmp. pose proof EPS_pos as Hep.
  assert (Ht : (circle_radius s / max_path s - EPS) * max_path s
               = circle_radius s - EPS * max_path s) by (field; lra).
  unfold earliest_impact.
  rewrite drop_bridge, drop_circle_left, drop_circle_right, drop_gate, drop_middle.
  rewrite Ht. cbv beta iota zeta.
  rewrite (ltb_false (max_path s) (max_path s)) by lra. cbv beta iota.
  rewrite (ltb_true (circle_radius s - EPS * max_path s) (max_path s)) by nra.
  cbv beta iota.
  rewrite !(ltb_false (max_path s) (circle_radius s - EPS * max_path s)) by nra.
  cbv beta iota.
  rewrite Hd, reflect_down_at_bottom. reflexivity.
Qed.

End Drop.

(** C8 (amended).  From the centre of the left urn, heading straight
    down, the planner chooses the impact on the arc of the left urn: the
    travel time is the radius less the bias [EPS * max_path] (not [EPS]),
    the planned position is straight below the centre at that distance,
    [(left_center_x, - (R - EPS * max_path))], and the planned direction
    is [PI / 2]. *)
Theorem drop_from_left_centre (fuel : nat) (s : Simulation) (particle : nat) :
  0 < circle_radius s -> 0 < bridge_height s -> 0 <= circle_distance s ->
  0 < bridge_length s < circle_distance s + 2 * circle_radius s ->
  left_center_x s = - circle_distance s / 2 - circle_radius s ->
  right_center_x s = circle_distance s / 2 + circle_radius s ->
  max_path s = circle_distance s + bridge_height s + circle_radius s * 4 ->
  EPS * max_path s < circle_radius s ->
  (particle < length (next_x_pos s))%nat -> (particle < length (next_y_pos s))%nat ->
  (particle < length (next_impact_times s))%nat ->
  (particle < length (next_directions s))%nat ->
  px s particle = left_center_x s -> py s particle = 0 -> dir s particle = - PI / 2 ->
  exists s' travel,
    compute_next_impact fuel s particle = Some s'
    /\ fst (time_to_hit_circle s particle (left_center_x s) 0) = travel
    /\ travel = circle_radius s - EPS * max_path s
    /\ Rabs (travel - circle_radius s) = EPS * max_path s
    /\ vget 0 (next_impact_times s') particle = time s + travel
    /\ vget 0 (next_x_pos s') particle = left_center_x s
    /\ vget 0 (next_y_pos s') particle = - travel
    /\ vget 0 (next_directions s') particle = PI / 2.
Proof.
  intros HR Hh HD HL Hl Hr Hm He L1 L2 L3 L4 Hx Hy Hd.
  pose proof (drop_earliest_impact s particle HR Hh HD HL Hl Hr Hm He Hx Hy Hd) as Hplan.
  pose proof (drop_circle_left s particle HR Hh HD HL Hl Hm He Hx Hy Hd 0) as Hcirc.
  assert (Hmp : 0 < max_path s) by lra. pose proof EPS_pos as Hep.
  assert (Hne : circle_radius s - EPS * max_path s <> max_path s) by nra.
  destruct (plan_impact_next s particle (circle_radius s - EPS * max_path s) (PI / 2))
    as (Ex & Ey & Et & Ea).
  exists (plan_impact s particle (circle_radius s - EPS * max_path s) (PI / 2)).
  exists (circle_radius s - EPS * max_path s).
  split; [| split; [| split; [| split; [| split; [| split; [| split]]]]]].
  - apply compute_next_impact_planned; assumption.
  - rewrite Hcirc. simpl. field. lra.
  - reflexivity.
  - rewrite Rabs_left1; nra.
  - rewrite Et, vget_vset_same by exact L3. reflexivity.
  - rewrite Ex, vget_vset_same by exact L1. rewrite Hx, Hd, cos_down. ring.
  - rewrite Ey, vget_vset_same by exact L2. rewrite Hy, Hd, sin_down. ring.
  - rewrite Ea, vget_vset_same by exact L4. reflexivity.
Qed.

Lemma drop_from_left_centre_witness :
  exists s' travel,
    compute_next_impact 0 dropped 0 = Some s'
    /\ fst (time_to_hit_circle dropped 0 (left_center_x dropped) 0) = travel
    /\ travel = circle_radius dropped - EPS * max_path dropped
    /\ Rabs (travel - circle_radius dropped) = EPS * max_path dropped
    /\ vget 0 (next_impact_times s') 0 = time dropped + travel
    /\ vget 0 (next_x_pos s') 0 = left_center_x dropped
    /\ vget 0 (next_y_pos s') 0 = - travel
    /\ vget 0 (next_directions s') 0 = PI / 2.
Proof.
  apply (drop_from_left_centre 0 dropped 0); run; try real; try reflexivity;
    repeat constructor.
Defined.

(** C8, as stated, fails at the bias: the planned travel from the centre
    of the left urn of radius 1 is [1 - 5.7 * EPS], further from the radius
    than [EPS], and the planned position is [5.7 * EPS] above [(-1.25, -1)]. *)
Lemma drop_misses_radius_by_more_than_EPS :
  exists s',
    compute_next_impact 0 dropped 0 = Some s'
    /\ circle_radius dropped = 1
    /\ vget 0 (next_impact_times s') 0 - time dropped = 1 - 5.7 * EPS
    /\ EPS < Rabs (vget 0 (next_impact_times s') 0 - time dropped - circle_radius dropped)
    /\ vget 0 (next_x_pos s') 0 = left_center_x dropped
    /\ vget 0 (next_y_pos s') 0 = - 1 + 5.7 * EPS
    /\ vget 0 (next_y_pos s') 0 <> - circle_radius dropped.
Proof.
  pose proof EPS_pos as Hep.
  assert (He : earliest_impact dropped 0
               = (circle_radius dropped - EPS * max_path dropped, PI / 2))
    by (apply drop_earliest_impact; run; try real; reflexivity).
  exists (plan_impact dropped 0 (circle_radius dropped - EPS * max_path dropped) (PI / 2)).
  split; [apply compute_next_impact_planned; [exact He | run; real] |].
  destruct (plan_impact_next dropped 0 (circle_radius dropped - EPS * max_path dropped)
              (PI / 2)) as (Ex & Ey & Et & _).
  rewrite Ex, Ey, Et.
  replace (dir dropped 0) with (- PI / 2) by reflexivity. rewrite cos_down, sin_down.
  run. repeat split; real.
Qed.

(** ** Running the program on a concrete configuration *)

(** Values of [cos] and [sin] at the angles 0 and [PI]. *)
Ltac trig :=
  repeat match goal with
  | |- context [cos ?e] =>
      first [ replace (cos e) with 1 by (replace e with 0 by real; symmetry; exact cos_0)
            | replace (cos e) with (-1)
                by (replace e with PI by real; symmetry; exact cos_PI_d) ]
  | |- context [sin ?e] =>
      first [ replace (sin e) with 0 by (replace e with 0 by real; symmetry; exact sin_0)
            | replace (sin e) with 0
                by (replace e with PI by real; symmetry; exact sin_PI_d) ]
  end.

(** A quotient by zero is zero. *)
Ltac zero_div :=
  repeat match goal with
  | |- context [?n / ?d] =>
      replace (n / d) with 0
        by (replace d with 0 by real; symmetry; apply div_zero)
  end.

(** The square roots of the discriminants of the example: [v * v]. *)
Ltac root v :=
  repeat match goal with
  | |- context [sqrt ?d] =>
      replace (sqrt d) with v by (symmetry; apply sqrt_lem_1; real)
  end.

Ltac angles :=
  repeat match goal with
  | |- context [atan2 ?y ?x] =>
      first [ rewrite (atan2_right y x) by real
            | rewrite (atan2_left y x) by real ]
  | |- context [fmod ?x ?y] =>
      first [ rewrite (fmod_eq x y 0) by real
            | rewrite (fmod_eq x y 1) by real ]
  end.

Ltac compare :=
  repeat (match goal with
  | |- context [ltb ?a ?b] =>
      first [ rewrite (ltb_true a b) by real | rewrite (ltb_false a b) by real ]
  | |- context [leb ?a ?b] =>
      first [ rewrite (leb_true a b) by real | rewrite (leb_false a b) by real ]
  | |- context [eqb ?a ?b] =>
      first [ rewrite (eqb_true a b) by real | rewrite (eqb_false a b) by real ]
  end; cbv beta iota).

Ltac run_reals :=
  cbv -[Rplus Rmult Rminus Ropp Rdiv Rinv IZR Rabs sqrt cos sin atan Rtrigo1.PI
        PI EPS Rlt_dec Rle_dec Req_dec_T Int_part ltb leb eqb fabs atan2 fmod trunc
        Rlt Rle Rge Rgt].

(** [H : t = v] for the value [v] of the closed call [t], whose arguments
    are values. *)
Ltac value_of t H :=
  eassert (H : t = _)
    by (repeat progress (run_reals; trig; zero_div; root 11.4; compare; angles);
        reflexivity).

(** Replaces the closed call [t] by its value. *)
Ltac force t :=
  let H := fresh "E" in value_of t H; rewrite H; clear H.

Lemma retract_trigger_S (fuel : nat) (s : Simulation) (exp_particle : nat) :
  retract_trigger (S fuel) s exp_particle
  = (let '(a, s) := get_retraction_angle s exp_particle in
     let s := set_directions (vset (directions s) exp_particle a) s in
     do s <- compute_next_impact fuel s exp_particle;
     if negb (is_in_domain s (vget 0 (next_x_pos s) exp_particle)
                             (vget 0 (next_y_pos s) exp_particle))
     then retract_trigger fuel s exp_particle
     else Some s).
Proof. reflexivity. Qed.

Lemma retract_occupants_S (fuel passes i : nat) (stale : list nat) (s : Simulation)
    (direction : nat) :
  retract_occupants fuel (S passes) i stale s direction
  = (let storage := contents s direction ++ stale in
     do particle <- nth_error storage i;
     do s <- retract_occupant fuel s particle direction;
     let stale := skipn (length (contents s direction)) storage in
     retract_occupants fuel passes (S i) stale s direction).
Proof. reflexivity. Qed.

Lemma retract_occupants_O (fuel i : nat) (stale : list nat) (s : Simulation)
    (direction : nat) :
  retract_occupants fuel 0 i stale s direction = Some s.
Proof. reflexivity. Qed.

(** The planner on a configuration, when no reset is needed. *)
Ltac ev_plan :=
  match goal with
  | |- context [compute_next_impact ?f ?s ?p] =>
      let H := fresh "E" in
      value_of (earliest_impact s p) H;
      rewrite (compute_next_impact_planned f s p _ _ H) by (run_reals; real);
      clear H;
      match goal with
      | |- context [plan_impact s p ?t ?a] => force (plan_impact s p t a)
      end
  end.

Ltac ev_trigger :=
  rewrite retract_trigger_S;
  match goal with
  | |- context [get_retraction_angle ?s ?p] => force (get_retraction_angle s p)
  end;
  cbv beta iota zeta;
  match goal with
  | |- context [set_directions ?v ?s] => force (set_directions v s)
  end;
  ev_plan; cbv beta iota;
  match goal with
  | |- context [is_in_domain ?s ?x ?y] => force (is_in_domain s x y)
  end;
  cbn [negb]; cbv beta iota.

Ltac ev_occupant :=
  cbv delta [retract_occupant] beta;
  match goal with
  | |- context [get_current_position ?s ?p] => force (get_current_position s p)
  end;
  cbv beta iota;
  match goal with
  | |- context [if negb (is_in_domain ?s ?x ?y) then ?a else ?b] =>
      force (if negb (is_in_domain s x y) then a else b)
  end;
  cbv beta iota zeta;
  match goal with |- context [set_x_pos ?v ?s] => force (set_x_pos v s) end;
  match goal with |- context [set_y_pos ?v ?s] => force (set_y_pos v s) end;
  match goal with
  | |- context [get_retraction_angle ?s ?p] => force (get_retraction_angle s p)
  end;
  cbv beta iota zeta;
  match goal with |- context [set_directions ?v ?s] => force (set_directions v s) end;
  match goal with |- context [set_impact_times ?v ?s] => force (set_impact_times v s) end;
  ev_plan; cbv beta iota;
  match goal with
  | |- context [reindex_particle ?s ?p ?b] => force (reindex_particle s p b)
  end;
  cbv beta iota.

Ltac ev_occupants :=
  repeat (rewrite retract_occupants_S; cbv zeta;
          match goal with |- context [nth_error ?l ?i] => force (nth_error l i) end;
          cbv beta iota;
          ev_occupant;
          match goal with |- context [skipn ?n ?l] => force (skipn n l) end);
  rewrite retract_occupants_O.

Ltac ev_explode :=
  cbv delta [explode_gate] beta;
  ev_trigger;
  match goal with |- context [length (contents ?s ?d)] => force (length (contents s d)) end;
  ev_occupants.

Ltac ev_admission :=
  match goal with
  | |- context [check_gate_admission ?f ?s ?p ?d] =>
      let Hf := fresh "E" in
      value_of ((flag s d p =? 0)%Z) Hf;
      first
        [ replace (check_gate_admission f s p d) with (Some s)
            by (unfold check_gate_admission; rewrite Hf; reflexivity)
        | let Hc := fresh "E" in
          value_of (INR (length (contents s d)) >? vget 0 (gate_capacities s) d - 1) Hc;
          first
            [ replace (check_gate_admission f s p d) with (explode_gate f s p d)
                by (unfold check_gate_admission; rewrite Hf, Hc; reflexivity);
              clear Hc; clear Hf; ev_explode
            | replace (check_gate_admission f s p d)
                with (Some (set_flag d p 1%Z (set_contents d (contents s d ++ [p]) s)))
                by (unfold check_gate_admission; rewrite Hf, Hc; reflexivity);
              clear Hc; clear Hf;
              match goal with
              | |- context [set_flag ?d' ?p' ?v ?s'] => force (set_flag d' p' v s')
              end ] ]
  end.

Ltac ev_gate_step :=
  match goal with
  | |- context [gate_step ?f ?s ?p ?d] =>
      let H := fresh "E" in
      value_of (is_in_gate s (px s p) (py s p) d && is_going_in s p) H;
      first
        [ replace (gate_step f s p d) with (check_gate_admission f s p d)
            by (unfold gate_step; rewrite H; reflexivity);
          clear H; ev_admission
        | replace (gate_step f s p d) with (Some (check_gate_departure s p d))
            by (unfold gate_step; rewrite H; reflexivity);
          clear H; force (check_gate_departure s p d) ]
  end.

(** One call of [update] without snapshots. *)
Ltac ev_update :=
  cbv delta [update] beta;
  match goal with |- context [hd_error ?l] => force (hd_error l) end;
  cbv beta iota; compare; cbv beta iota zeta;
  match goal with |- context [repair_next_pos ?s ?p] => force (repair_next_pos s p) end;
  match goal with |- context [count_crossing ?s ?p] => force (count_crossing s p) end;
  match goal with |- context [commit ?s ?p ?t] => force (commit s p t) end;
  ev_gate_step; cbv beta iota;
  ev_gate_step; cbv beta iota;
  ev_plan; cbv beta iota;
  match goal with
  | |- context [reindex_particle ?s ?p ?b] => force (reindex_particle s p b)
  end;
  cbv beta iota;
  match goal with |- context [measure ?s] => force (measure s) end.

Lemma reset_loop_done (fuel : nat) (s : Simulation) (particle : nat) (bx byr : R)
    (direction : nat) :
  negb (is_in_circle s (px s particle) (py s particle) direction)
  || is_in_gate s (px s particle) (py s particle) direction
  || is_in_bridge s (px s particle) (py s particle) = false ->
  reset_loop fuel s particle bx byr direction = Some s.
Proof. intros H. destruct fuel; simpl; rewrite H; reflexivity. Qed.

Lemma reset_loop_again (fuel : nat) (s : Simulation) (particle : nat) (bx byr : R)
    (direction : nat) :
  negb (is_in_circle s (px s particle) (py s particle) direction)
  || is_in_gate s (px s particle) (py s particle) direction
  || is_in_bridge s (px s particle) (py s particle) = true ->
  reset_loop (S fuel) s particle bx byr direction
  = (let '(u, s) := draw s in
     let s := set_x_pos (vset (x_pos s) particle ((u - 0.5) * bx * 2)) s in
     let '(u, s) := draw s in
     let s := set_y_pos (vset (y_pos s) particle ((u - 0.5) * byr * 2)) s in
     reset_loop fuel s particle bx byr direction).
Proof. intros H. simpl. rewrite H. reflexivity. Qed.

Lemma init_particles_cons (fuel : nat) (s : Simulation) (particle : nat)
    (particles : list nat) (bx byr : R) (side : nat) :
  init_particles fuel s (particle :: particles) bx byr side
  = (do s <- reset_particle fuel s particle bx byr side;
     do s <- compute_next_impact fuel s particle;
     let s := if Nat.eqb side LEFT then set_in_left (wrap64 (in_left s + 1)) s else s in
     init_particles fuel s particles bx byr side).
Proof. reflexivity. Qed.

Lemma init_particles_nil (fuel : nat) (s : Simulation) (bx byr : R) (side : nat) :
  init_particles fuel s [] bx byr side = Some s.
Proof. reflexivity. Qed.

Ltac ev_reset_loop :=
  repeat match goal with
  | |- context [reset_loop ?f ?s ?p ?bx ?byr ?d] =>
      let H := fresh "E" in
      value_of (negb (is_in_circle s (px s p) (py s p) d)
                || is_in_gate s (px s p) (py s p) d
                || is_in_bridge s (px s p) (py s p)) H;
      first
        [ rewrite (reset_loop_done f s p bx byr d H); clear H
        | rewrite (reset_loop_again _ s p bx byr d H); clear H;
          match goal with |- context [draw ?s'] => force (draw s') end;
          cbv beta iota zeta;
          match goal with |- context [set_x_pos ?v ?s'] => force (set_x_pos v s') end;
          match goal with |- context [draw ?s'] => force (draw s') end;
          cbv beta iota zeta;
          match goal with |- context [set_y_pos ?v ?s'] => force (set_y_pos v s') end ]
  end.

Ltac ev_reset_particle :=
  cbv delta [reset_particle] beta zeta;
  match goal with |- context [set_x_pos ?v ?s] => force (set_x_pos v s) end;
  match goal with |- context [set_y_pos ?v ?s] => force (set_y_pos v s) end;
  ev_reset_loop; cbv beta iota;
  match goal with |- context [draw ?s] => force (draw s) end;
  cbv beta iota;
  match goal with |- context [set_directions ?v ?s] => force (set_directions v s) end.

Ltac ev_init :=
  repeat (rewrite init_particles_cons;
          ev_reset_particle; cbv beta iota;
          ev_plan; cbv beta iota zeta;
          match goal with
          | |- context [if Nat.eqb ?side LEFT then ?a else ?b] =>
              force (if Nat.eqb side LEFT then a else b)
          end);
  rewrite init_particles_nil.

Ltac ev_trunc :=
  match goal with
  | |- context [trunc ?x] =>
      first [ rewrite (trunc_eq x 0) by (run_reals; real)
            | rewrite (trunc_eq x 1) by (run_reals; real)
            | rewrite (trunc_eq x 2) by (run_reals; real)
            | rewrite (trunc_eq x 3) by (run_reals; real) ]
  end.

Ltac ev_start :=
  cbv delta [start] beta zeta;
  match goal with |- context [set_time ?v ?s] => force (set_time v s) end;
  match goal with
  | |- context [set_last_written_time ?v ?s] => force (set_last_written_time v s)
  end;
  match goal with |- context [set_in_left ?v ?s] => force (set_in_left v s) end;
  match goal with
  | |- context [if ?c then Thrown invalid_argument else _] => force c
  end;
  cbv beta iota;
  match goal with
  | |- context [if ?c then Thrown domain_error else _] => force c
  end;
  cbv beta iota;
  match goal with
  | |- context [if ?c then Thrown domain_error else _] => force c
  end;
  cbv beta iota;
  ev_trunc;
  repeat match goal with |- context [seq ?a ?n] => force (seq a n) end;
  ev_init; cbv beta iota;
  ev_init; cbv beta iota;
  match goal with |- context [sort_indices ?s] => force (sort_indices s) end;
  match goal with |- context [measure ?s] => force (measure s) end.

(** Equality of two configurations given by their members. *)
Ltac same_configuration := apply f_equal; run_reals; same_state.

(** ** Three particles and a full gate *)

Lemma three_started : start 1 (urns draws1 3) (2 / 3) = Started three.
Proof. ev_start. same_configuration. Qed.

Lemma three_update_1 : update 0 three 0 = Some three1.
Proof. ev_update. same_configuration. Qed.

Lemma three_update_2 : update 1 three1 0 = Some three2.
Proof. ev_update. same_configuration. Qed.

Lemma three_update_3 : update 0 three2 0 = Some three3.
Proof. ev_update. same_configuration. Qed.

Lemma three_update_4 : update 0 three3 0 = Some three4.
Proof. ev_update. same_configuration. Qed.

(** ** [start] places every particle *)

Lemma geometry_predicates (s s' : Simulation) (x y : R) (side : nat) :
  geometry s' = geometry s ->
  is_in_circle s' x y side = is_in_circle s x y side
  /\ is_in_gate s' x y side = is_in_gate s x y side
  /\ is_in_bridge s' x y = is_in_bridge s x y.
Proof.
  unfold geometry. intros H. injection H as _ H1 H2 H3 H4 H5 H6 H7 H8 H9 H10 H11.
  unfold is_in_gate, is_in_circle, is_in_bridge.
  rewrite H1, H3, H4, H5, H6, H8. repeat split.
Qed.

Lemma placed_kept (s s' : Simulation) (particle : nat) :
  geometry s' = geometry s ->
  px s' particle = px s particle -> py s' particle = py s particle ->
  placed s particle -> placed s' particle.
Proof.
  intros G Hx Hy (side & H1 & H2 & H3). exists side. rewrite Hx, Hy.
  destruct (geometry_predicates s s' (px s particle) (py s particle) side G) as (E1 & E2 & E3).
  rewrite E1, E2, E3. auto.
Qed.

Lemma others_kept_refl (particle : nat) (s : Simulation) : others_kept particle s s.
Proof. split; auto. Qed.

Lemma others_kept_trans (particle : nat) (s1 s2 s3 : Simulation) :
  others_kept particle s1 s2 -> others_kept particle s2 s3 -> others_kept particle s1 s3.
Proof.
  intros [G1 P1] [G2 P2]. split; [congruence |].
  intros p Hp. destruct (P1 p Hp), (P2 p Hp). split; congruence.
Qed.

Lemma others_kept_placed (particle p : nat) (s s' : Simulation) :
  others_kept particle s s' -> p <> particle -> placed s p -> placed s' p.
Proof.
  intros [G P] Hp. destruct (P p Hp). apply placed_kept; assumption.
Qed.

Lemma positions_kept_others (particle : nat) (s s' : Simulation) :
  geometry s' = geometry s -> x_pos s' = x_pos s -> y_pos s' = y_pos s ->
  others_kept particle s s'.
Proof.
  intros G Hx Hy. split; [exact G |]. intros p _. unfold px, py. rewrite Hx, Hy. auto.
Qed.

Ltac others_step :=
  split; [reflexivity |];
  let p := fresh "p" in let Hp := fresh "Hp" in
  intros p Hp; unfold px, py; simpl x_pos; simpl y_pos;
  rewrite ?vget_vset_other by auto; split; reflexivity.

Lemma reset_loop_placed (fuel : nat) :
  forall s particle bx byr direction s',
    reset_loop fuel s particle bx byr direction = Some s' ->
    placed s' particle /\ others_kept particle s s'.
Proof.
  induction fuel as [| fuel IH]; intros s particle bx byr direction s' H; simpl in H;
    destruct (negb _ || _ || _) eqn:E; try discriminate.
  - injection H as <-.
    apply orb_false_iff in E. destruct E as [E E3].
    apply orb_false_iff in E. destruct E as [E1 E2]. apply negb_false_iff in E1.
    split; [exists direction; auto | apply others_kept_refl].
  - apply IH in H. destruct H as [H1 H2]. split; [exact H1 |].
    eapply others_kept_trans; [| exact H2]. others_step.
  - injection H as <-.
    apply orb_false_iff in E. destruct E as [E E3].
    apply orb_false_iff in E. destruct E as [E1 E2]. apply negb_false_iff in E1.
    split; [exists direction; auto | apply others_kept_refl].
Qed.

Lemma reset_particle_placed (fuel : nat) (s : Simulation) (particle : nat) (bx byr : R)
    (direction : nat) (s' : Simulation) :
  reset_particle fuel s particle bx byr direction = Some s' ->
  placed s' particle /\ others_kept particle s s'.
Proof.
  unfold reset_particle. intros H.
  destruct (reset_loop _ _ _ _ _ _) as [s1 |] eqn:E; [| discriminate].
  apply reset_loop_placed in E. destruct E as [E1 E2].
  simpl in H. injection H as <-. split.
  - eapply placed_kept; [| | | exact E1]; reflexivity.
  - eapply others_kept_trans; [| eapply others_kept_trans; [exact E2 |]]; others_step.
Qed.

Lemma compute_next_impact_placed (fuel : nat) :
  forall s particle s',
    compute_next_impact fuel s particle = Some s' ->
    (placed s particle -> placed s' particle) /\ others_kept particle s s'.
Proof.
  induction fuel as [| fuel IH]; intros s particle s' H; simpl in H;
    destruct (earliest_impact s particle) as [next_time next_angle];
    destruct (next_time =? max_path s); try discriminate.
  - injection H as <-. split.
    + apply placed_kept; reflexivity.
    + apply positions_kept_others; reflexivity.
  - destruct (reset_particle _ _ _ _ _ _) as [s1 |] eqn:E; [| discriminate].
    apply reset_particle_placed in E. destruct E as [E1 E2].
    apply IH in H. destruct H as [H1 H2]. split; [auto |].
    eapply others_kept_trans; [| exact H2]. eapply others_kept_trans; [| exact E2].
    apply positions_kept_others; reflexivity.
  - injection H as <-. split.
    + apply placed_kept; reflexivity.
    + apply positions_kept_others; reflexivity.
Qed.

Lemma init_particles_placed (fuel : nat) (particles : list nat) :
  forall s bx byr side s',
    NoDup particles ->
    init_particles fuel s particles bx byr side = Some s' ->
    geometry s' = geometry s
    /\ (forall p, In p particles -> placed s' p)
    /\ (forall p, ~ In p particles -> placed s p -> placed s' p).
Proof.
  induction particles as [| particle particles IH]; intros s bx byr side s' Hnd H; simpl in H.
  - injection H as <-. repeat split; [intros p [] | auto].
  - inversion Hnd as [| ? ? Hnotin Hnd']; subst.
    destruct (reset_particle _ _ _ _ _ _) as [s1 |] eqn:E1; [| discriminate].
    destruct (compute_next_impact _ _ _) as [s2 |] eqn:E2; [| discriminate].
    apply reset_particle_placed in E1. destruct E1 as [P1 O1].
    apply compute_next_impact_placed in E2. destruct E2 as [P2 O2].
    set (s3 := if Nat.eqb side LEFT then set_in_left (wrap64 (in_left s2 + 1)) s2 else s2) in H.
    assert (O3 : forall q, others_kept q s2 s3).
    { intros q. subst s3. destruct (Nat.eqb side LEFT);
        [apply positions_kept_others; reflexivity | apply others_kept_refl]. }
    assert (P3 : placed s3 particle).
    { destruct (O3 particle) as [G _]. eapply placed_kept; [exact G | | | apply P2, P1];
        subst s3; destruct (Nat.eqb side LEFT); reflexivity. }
    assert (O : others_kept particle s s3).
    { eapply others_kept_trans; [exact O1 |]. eapply others_kept_trans; [exact O2 | apply O3]. }
    clearbody s3. apply IH in H; [| exact Hnd']. destruct H as (G & Hin & Hout).
    split; [destruct O as [G' _]; congruence |]. split.
    + intros p [<- | Hp]; [apply Hout; assumption | apply Hin; assumption].
    + intros p Hp Hpl. apply Hout; [intros Hc; apply Hp; right; exact Hc |].
      eapply others_kept_placed; [exact O | intros ->; apply Hp; left; reflexivity | exact Hpl].
Qed.

Lemma measure_sort_placed (s : Simulation) (p : nat) :
  placed s p -> placed (measure (sort_indices s)) p.
Proof. apply placed_kept; reflexivity. Qed.

(** ** More fuel changes no result *)






(** ** Sampling that never ends *)







(** ** Witnesses on the example configurations *)

Lemma gate_bounded_three : gate_bounded three.
Proof.
  intros side Hs. destruct side as [| [| side]]; [| | lia];
    cbv -[Rle IZR]; lra.
Qed.

Lemma gate_occupancy_bounded_witness :
  gate_bounded three /\ reachable three three2 /\ gate_bounded three2.
Proof.
  assert (Hr : reachable three three2).
  { eapply reach_update; [eapply reach_update; [apply reach_here | exact three_update_1] |
                          exact three_update_2]. }
  split; [exact gate_bounded_three |]. split; [exact Hr |].
  exact (gate_occupancy_bounded three three2 gate_bounded_three Hr).
Defined.

Lemma get_current_position_division_safe_witness :
  get_current_position dropped 0 <> None
  /\ get_current_position dropped 0 = Some (px dropped 0, py dropped 0).
Proof.
  destruct (get_current_position_division_safe dropped 0) as (H1 & H2 & _).
  split; [exact H1 | apply H2; reflexivity].
Defined.

(** ** The order of the events *)

(** C5.  The global time goes back.  Three particles, gates of capacity 1:
    [start] plans the impacts at the times 0.25, 0.35 and 1 (up to the
    bias).  The second [update] explodes the left gate; afterwards the head
    of [sorted_indices] is particle 1, whose impact is later than the one of
    particle 0, and particle 0 is no longer in the list.  The third [update]
    sets the time to 2.35, the fourth to 1 (up to the bias). *)
Theorem time_goes_back :
  start 1 (urns draws1 3) (2 / 3) = Started three
  /\ update 0 three 0 = Some three1
  /\ update 1 three1 0 = Some three2
  /\ update 0 three2 0 = Some three3
  /\ update 0 three3 0 = Some three4
  /\ hd 0%nat (sorted_indices three2) = 1%nat
  /\ ~ In 0%nat (sorted_indices three2)
  /\ vget 0 (next_impact_times three2) 0 < vget 0 (next_impact_times three2) 1
  /\ time three4 < time three3.
Proof.
  split; [exact three_started |]. split; [exact three_update_1 |].
  split; [exact three_update_2 |]. split; [exact three_update_3 |].
  split; [exact three_update_4 |]. split; [reflexivity |].
  split; [simpl; intuition discriminate |].
  split; cbv -[Rlt Rplus Rmult Rminus Ropp Rdiv Rinv IZR]; unfold EPS; lra.
Qed.

(** ** The bias of the candidate times *)











Lemma time_to_hit_bridge_fst (s : Simulation) (particle : nat) (a b : R) :
  fst (time_to_hit_bridge s particle a) = fst (time_to_hit_bridge s particle b).
Proof.
  unfold time_to_hit_bridge. cbv zeta.
  repeat match goal with |- context [if ?c then _ else _] => destruct c end; reflexivity.
Qed.





(** ** Three particles and a late explosion *)

Lemma late_started : start 1 (urns draws2 3) (2 / 3) = Started late.
Proof. ev_start. same_configuration. Qed.

Lemma late_update_1 : update 0 late 0 = Some late1.
Proof. ev_update. same_configuration. Qed.

Lemma late_update_2 : update 1 late1 0 = Some late2.
Proof. ev_update. same_configuration. Qed.

(** ** (I4) Flags and occupants *)

Lemma frame_flags (s s' : Simulation) : frame s s' -> gate_arrays s' = gate_arrays s.
Proof. intros (_ & F & _). exact F. Qed.

Lemma retract_occupant_flags (fuel : nat) (s : Simulation) (particle direction : nat)
    (s' : Simulation) :
  retract_occupant fuel s particle direction = Some s' -> gate_arrays s' = gate_arrays s.
Proof.
  unfold retract_occupant.
  destruct (get_current_position s particle) as [[x y] |]; [| intros H; discriminate H].
  set (s1 := if negb (is_in_domain s x y) then s
             else if negb (is_in_gate s x y direction)
                  then erase_remove direction particle s else s).
  assert (F1 : gate_arrays s1 = gate_arrays s).
  { subst s1. destruct (negb _); [reflexivity |]. destruct (negb _); reflexivity. }
  clearbody s1. intros H.
  pose proof (get_retraction_angle_frame
                (set_y_pos (vset (y_pos (set_x_pos (vset (x_pos s1) particle x) s1)) particle y)
                   (set_x_pos (vset (x_pos s1) particle x) s1)) particle) as Ha.
  destruct (get_retraction_angle _ particle) as [a s2]. simpl in Ha.
  destruct (compute_next_impact _ _ _) as [s3 |] eqn:E; [| discriminate].
  apply compute_next_impact_frame, frame_flags in E.
  apply reindex_particle_frame, frame_flags in H. apply frame_flags in Ha.
  rewrite H, E. simpl. rewrite Ha. exact F1.
Qed.

Lemma retract_occupants_flags (fuel passes : nat) :
  forall i stale s direction s',
    retract_occupants fuel passes i stale s direction = Some s' ->
    gate_arrays s' = gate_arrays s.
Proof.
  induction passes as [| passes IH]; intros i stale s direction s' H; simpl in H.
  - injection H as <-. reflexivity.
  - destruct (nth_error _ i) as [particle |]; [| discriminate].
    destruct (retract_occupant _ _ _ _) as [s1 |] eqn:E; [| discriminate].
    apply retract_occupant_flags in E. apply IH in H. congruence.
Qed.

Lemma explode_gate_flags (fuel : nat) (s : Simulation) (exp_particle direction : nat)
    (s' : Simulation) :
  explode_gate fuel s exp_particle direction = Some s' -> gate_arrays s' = gate_arrays s.
Proof.
  unfold explode_gate. intros H.
  destruct (retract_trigger _ _ _) as [s1 |] eqn:E; [| discriminate].
  apply retract_trigger_frame, frame_flags in E.
  apply retract_occupants_flags in H. congruence.
Qed.

Lemma flags_match_late1 : flags_match_contents late1.
Proof.
  intros side particle Hs.
  destruct side as [| [| side]]; [| | lia];
    destruct particle as [| [| [| particle]]]; cbv; split; intros H;
    try discriminate; try tauto; try (destruct particle; discriminate);
    repeat (destruct H as [H | H]; try discriminate); try contradiction.
Qed.

(** C2.  A flag outlives the membership.  Three particles, gates of
    capacity 1.  After the first [update] particle 0 is in the left gate,
    flagged and listed.  The second [update], of particle 1, explodes the
    left gate while particle 0 is at [x = 3 * EPS], right of the mid-line:
    [explode_gate] takes it out of [gate_contents] and leaves its flag.  At
    the end of that [update] the flag of particle 0 is 1 and the left gate
    is empty. *)
Theorem flag_outlives_membership :
  start 1 (urns draws2 3) (2 / 3) = Started late
  /\ update 0 late 0 = Some late1
  /\ update 1 late1 0 = Some late2
  /\ flags_match_contents late1
  /\ flag late2 LEFT 0 = 1%Z
  /\ contents late2 LEFT = []
  /\ ~ flags_match_contents late2.
Proof.
  split; [exact late_started |]. split; [exact late_update_1 |].
  split; [exact late_update_2 |]. split; [exact flags_match_late1 |].
  split; [reflexivity |]. split; [reflexivity |].
  intros H. apply (proj1 (H LEFT 0%nat ltac:(unfold LEFT; lia)) eq_refl).
Qed.

(** ** The mid-line belongs to both gates *)

Lemma retract_occupant_geometry (fuel : nat) (s : Simulation) (particle direction : nat)
    (s' : Simulation) :
  retract_occupant fuel s particle direction = Some s' -> geometry s' = geometry s.
Proof.
  unfold retract_occupant.
  destruct (get_current_position s particle) as [[x y] |]; [| intros H; discriminate H].
  set (s1 := if negb (is_in_domain s x y) then s
             else if negb (is_in_gate s x y direction)
                  then erase_remove direction particle s else s).
  assert (F1 : geometry s1 = geometry s).
  { subst s1. destruct (negb _); [reflexivity |]. destruct (negb _); reflexivity. }
  clearbody s1. intros H.
  pose proof (get_retraction_angle_frame
                (set_y_pos (vset (y_pos (set_x_pos (vset (x_pos s1) particle x) s1)) particle y)
                   (set_x_pos (vset (x_pos s1) particle x) s1)) particle) as (Ha & _).
  destruct (get_retraction_angle _ particle) as [a s2]. simpl in Ha.
  destruct (compute_next_impact _ _ _) as [s3 |] eqn:E; [| discriminate].
  apply compute_next_impact_frame in E. destruct E as (E & _).
  apply reindex_particle_frame in H. destruct H as (H & _).
  rewrite H, E. unfold geometry in *. simpl. simpl in Ha. congruence.
Qed.

Lemma retract_occupants_geometry (fuel passes : nat) :
  forall i stale s direction s',
    retract_occupants fuel passes i stale s direction = Some s' -> geometry s' = geometry s.
Proof.
  induction passes as [| passes IH]; intros i stale s direction s' H; simpl in H.
  - injection H as <-. reflexivity.
  - destruct (nth_error _ i) as [particle |]; [| discriminate].
    destruct (retract_occupant _ _ _ _) as [s1 |] eqn:E; [| discriminate].
    apply retract_occupant_geometry in E. apply IH in H. congruence.
Qed.

Lemma check_gate_admission_geometry (fuel : nat) (s : Simulation) (particle direction : nat)
    (s' : Simulation) :
  check_gate_admission fuel s particle direction = Some s' -> geometry s' = geometry s.
Proof.
  unfold check_gate_admission, explode_gate. intros H.
  destruct (_ =? _)%Z; [| injection H as <-; reflexivity].
  destruct (_ >? _); [| injection H as <-; reflexivity].
  destruct (retract_trigger _ _ _) as [s1 |] eqn:E; [| discriminate].
  apply retract_trigger_frame in E. destruct E as (E & _).
  apply retract_occupants_geometry in H. congruence.
Qed.

Lemma is_in_gate_at_zero_flat (s : Simulation) (y : R) (direction : nat) :
  gate_is_flat s = true -> is_in_gate s 0 y direction = (0 <=? bridge_length s / 2).
Proof.
  intros Hf. unfold is_in_gate. rewrite Hf, sign_condition_at_zero.
  unfold fabs. rewrite Rabs_R0. reflexivity.
Qed.

(** C9 (amended).  At [x = 0] the sign condition of [is_in_gate] holds for
    both sides.  With a flat gate the point [(0, y)] is in both gates or in
    neither, and it is in both exactly when [bridge_length] is not
    negative; with an arc gate it is in both gates when it is in neither
    circle.  When [update] commits the head of [sorted_indices] at a
    position [(0, y)] that is in both gates, it calls [check_gate_admission]
    for the left gate, and for the right gate too as long as the particle
    is still at [(0, y)], which it is unless the left gate explodes. *)
Theorem midline_in_both_gates (s : Simulation) (y : R) :
  ((IZR (Z.of_nat LEFT * 2 - 1) * 0 >=? 0) = true
   /\ (IZR (Z.of_nat RIGHT * 2 - 1) * 0 >=? 0) = true)
  /\ (gate_is_flat s = true ->
      is_in_gate s 0 y LEFT = is_in_gate s 0 y RIGHT
      /\ (is_in_gate s 0 y LEFT = true <-> 0 <= bridge_length s))
  /\ (gate_is_flat s = false ->
      is_in_circle s 0 y LEFT = false -> is_in_circle s 0 y RIGHT = false ->
      is_in_gate s 0 y LEFT = true /\ is_in_gate s 0 y RIGHT = true)
  /\ (forall (fuel : nat) (write_dt : R) (particle : nat) (s1 : Simulation),
      hd_error (sorted_indices s) = Some particle ->
      (if write_dt >? 0
       then emit_snapshots fuel s (vget 0 (next_impact_times s) particle) write_dt
       else Some s) = Some s1 ->
      let s0 := commit (count_crossing (repair_next_pos s1 particle) particle) particle
                  (vget 0 (next_impact_times s) particle) in
      px s0 particle = 0 -> py s0 particle = y ->
      is_in_gate s0 0 y LEFT = true -> is_in_gate s0 0 y RIGHT = true ->
      update fuel s write_dt
      = (do sL <- check_gate_admission fuel s0 particle LEFT;
         do sR <- gate_step fuel sL particle RIGHT;
         do s5 <- compute_next_impact fuel sR particle;
         do s6 <- reindex_particle s5 particle true;
         Some (measure s6))
      /\ forall sL, check_gate_admission fuel s0 particle LEFT = Some sL ->
           (px sL particle = 0 -> py sL particle = y ->
            gate_step fuel sL particle RIGHT = check_gate_admission fuel sL particle RIGHT)
           /\ ((flag s0 LEFT particle =? 0)%Z = false
               \/ (INR (length (contents s0 LEFT)) >? vget 0 (gate_capacities s0) LEFT - 1)
                  = false ->
               px sL particle = 0 /\ py sL particle = y)).
Proof.
  split; [| split; [| split]].
  - split; apply sign_condition_at_zero.
  - intros Hflat. rewrite !is_in_gate_at_zero_flat by exact Hflat.
    split; [reflexivity |]. rewrite leb_true_iff. lra.
  - intros Harc Hl Hr. unfold is_in_gate.
    rewrite Harc, !sign_condition_at_zero, Hl, Hr. split; reflexivity.
  - intros fuel write_dt particle s1 Hhd Hs1 s0 Hx Hy Hl Hr. split.
    + unfold update. rewrite Hhd. cbv zeta. rewrite Hs1. fold s0.
      unfold gate_step at 1. fold LEFT.
      rewrite Hx, Hy, Hl, (is_going_in_at_zero s0 particle Hx). reflexivity.
    + intros sL HL. split.
      * intros HxL HyL. unfold gate_step. rewrite HxL, HyL.
        destruct (geometry_predicates s0 sL 0 y RIGHT
                    (check_gate_admission_geometry _ _ _ _ _ HL)) as (_ & Eg & _).
        rewrite Eg, Hr, (is_going_in_at_zero sL particle HxL). reflexivity.
      * intros Hno. unfold check_gate_admission in HL.
        destruct (flag s0 LEFT particle =? 0)%Z; [| injection HL as <-; auto].
        destruct Hno as [Hno | Hno]; [discriminate |].
        rewrite Hno in HL. injection HL as <-. split; assumption.
Qed.

Lemma update_at_origin : update 0 (urns [] 1) 0 = Some astride.
Proof. ev_update. same_configuration. Qed.

Lemma midline_in_both_gates_witness :
  (gate_is_flat flat_urns = true
   /\ is_in_gate flat_urns 0 0.3 LEFT = is_in_gate flat_urns 0 0.3 RIGHT
   /\ (is_in_gate flat_urns 0 0.3 LEFT = true <-> 0 <= bridge_length flat_urns))
  /\ (gate_is_flat (urns [] 1) = false
      /\ is_in_circle (urns [] 1) 0 0.3 LEFT = false
      /\ is_in_circle (urns [] 1) 0 0.3 RIGHT = false
      /\ is_in_gate (urns [] 1) 0 0.3 LEFT = true /\ is_in_gate (urns [] 1) 0 0.3 RIGHT = true)
  /\ (let s0 := commit (count_crossing (repair_next_pos (urns [] 1) 0) 0) 0
                  (vget 0 (next_impact_times (urns [] 1)) 0) in
      update 0 (urns [] 1) 0
      = (do sL <- check_gate_admission 0 s0 0 LEFT;
         do sR <- gate_step 0 sL 0 RIGHT;
         do s5 <- compute_next_impact 0 sR 0;
         do s6 <- reindex_particle s5 0 true;
         Some (measure s6))
      /\ update 0 (urns [] 1) 0 = Some astride
      /\ flag astride LEFT 0 = 1%Z /\ flag astride RIGHT 0 = 1%Z).
Proof.
  assert (Hcl : is_in_circle (urns [] 1) 0 0.3 LEFT = false)
    by (unfold is_in_circle; simpl; apply ltb_false; lra).
  assert (Hcr : is_in_circle (urns [] 1) 0 0.3 RIGHT = false)
    by (unfold is_in_circle; simpl; apply ltb_false; lra).
  split; [| split].
  - split; [reflexivity |].
    exact (proj1 (proj2 (midline_in_both_gates flat_urns 0.3)) eq_refl).
  - split; [reflexivity |]. split; [exact Hcl |]. split; [exact Hcr |].
    exact (proj1 (proj2 (proj2 (midline_in_both_gates (urns [] 1) 0.3))) eq_refl Hcl Hcr).
  - cbv zeta. split; [| split; [exact update_at_origin | split; reflexivity]].
    assert (Hs1 : (if 0 >? 0
                   then emit_snapshots 0 (urns [] 1)
                          (vget 0 (next_impact_times (urns [] 1)) 0) 0
                   else Some (urns [] 1)) = Some (urns [] 1))
      by (rewrite (ltb_false 0 0) by lra; reflexivity).
    eassert (E0 : commit (count_crossing (repair_next_pos (urns [] 1) 0) 0) 0
                    (vget 0 (next_impact_times (urns [] 1)) 0) = _).
    { match goal with |- context [repair_next_pos ?s ?p] => force (repair_next_pos s p) end.
      match goal with |- context [count_crossing ?s ?p] => force (count_crossing s p) end.
      match goal with |- context [commit ?s ?p ?t] => force (commit s p t) end.
      reflexivity. }
    refine (proj1 (proj2 (proj2 (proj2 (midline_in_both_gates (urns [] 1) 0)))
                     0%nat 0 0%nat (urns [] 1) eq_refl Hs1 _ _ _ _)).
    + rewrite E0. reflexivity.
    + rewrite E0. reflexivity.
    + rewrite E0. match goal with |- ?t = true => force t end. reflexivity.
    + rewrite E0. match goal with |- ?t = true => force t end. reflexivity.
Defined.

(** C9, as stated, fails for a flat gate on a bridge of negative length:
    the point [(0, 0)] of the mid-line is in neither gate. *)
Lemma flat_midline_in_no_gate :
  gate_is_flat overlapping = true
  /\ bridge_length overlapping = - 1.6
  /\ is_in_gate overlapping 0 0 LEFT = false
  /\ is_in_gate overlapping 0 0 RIGHT = false.
Proof.
  assert (Hs : sqrt (1 ^ 2 - 1.2 ^ 2 / 4) = 0.8) by (apply sqrt_lem_1; lra).
  assert (Hl : bridge_length overlapping = - 1.6).
  { cbv -[Rplus Rmult Rminus Ropp Rdiv Rinv IZR sqrt pow] in *. rewrite Hs. lra. }
  split; [reflexivity |]. split; [exact Hl |].
  rewrite !is_in_gate_at_zero_flat by reflexivity. rewrite Hl.
  split; apply leb_false; lra.
Qed.

(** ** The clock and the measurements *)















(** ** Planned impacts lie in the future *)






(** ** Explosions, flags and occupants *)

Lemma explode_full_gate : explode_gate 1 full_gate 1 LEFT = Some exploded.
Proof. ev_explode. same_configuration. Qed.

(** X3.  [explode_gate] writes no flag: [gate_arrays] is the same before
    and after, whatever it removes from [gate_contents]. *)
Theorem explode_gate_leaves_flags (fuel : nat) (s s' : Simulation)
    (exp_particle direction : nat) :
  explode_gate fuel s exp_particle direction = Some s' ->
  gate_arrays s' = gate_arrays s
  /\ forall side, (length (contents s' side) <= length (contents s side))%nat.
Proof.
  intros H. split; [eapply explode_gate_flags; eauto |].
  apply explode_gate_no_fuller in H. destruct H as [_ H]. exact H.
Qed.

Lemma explode_gate_leaves_flags_witness :
  gate_arrays exploded = gate_arrays full_gate
  /\ forall side, (length (contents exploded side) <= length (contents full_gate side))%nat.
Proof. exact (explode_gate_leaves_flags 1 full_gate exploded 1 LEFT explode_full_gate). Defined.

Lemma flagged_in_range (s : Simulation) (direction particle : nat) :
  flag s direction particle <> 0%Z ->
  (direction < length (gate_arrays s))%nat
  /\ (particle < length (vget [] (gate_arrays s) direction))%nat.
Proof.
  unfold flag, vget. intros H. split.
  - destruct (Nat.lt_ge_cases direction (length (gate_arrays s))) as [Hl | Hl]; [exact Hl |].
    exfalso. apply H. rewrite (nth_overflow (gate_arrays s) [] Hl). destruct particle; reflexivity.
  - destruct (Nat.lt_ge_cases particle (length (nth direction (gate_arrays s) [])))
      as [Hl | Hl]; [exact Hl |].
    exfalso. apply H. apply nth_overflow. exact Hl.
Qed.

Lemma list_remove_In (particle q : nat) (l : list nat) :
  In q (list_remove particle l) <-> In q l /\ q <> particle.
Proof.
  unfold list_remove. rewrite filter_In, negb_true_iff, Nat.eqb_neq. tauto.
Qed.

Lemma check_gate_departure_flags (s : Simulation) (particle direction : nat) :
  flags_match_contents s -> flags_match_contents (check_gate_departure s particle direction).
Proof.
  intros I. unfold check_gate_departure.
  destruct (flag s direction particle =? 1)%Z eqn:E; [| exact I].
  apply Z.eqb_eq in E.
  destruct (flagged_in_range s direction particle) as [Hd Hp]; [rewrite E; discriminate |].
  intros side q Hs. pose proof I as Hm. specialize (I side q Hs).
  unfold flags_match_contents, flag, contents, set_flag, erase_remove, set_contents,
    contents in *. simpl.
  destruct (Nat.eq_dec direction side) as [<- | Hne].
  - rewrite vget_vset_same by exact Hd.
    destruct (vget_vset_cases [] (gate_contents s) direction direction
                (list_remove particle (vget [] (gate_contents s) direction)))
      as [[_ Ec] | Ec]; rewrite Ec.
    + rewrite list_remove_In.
      destruct (Nat.eq_dec particle q) as [<- | Hq].
      * rewrite vget_vset_same by exact Hp. split; [discriminate | tauto].
      * rewrite vget_vset_other by exact Hq. rewrite I. split; [auto | tauto].
    + exfalso.
      assert (Hin : In particle (vget [] (gate_contents s) direction)).
      { destruct (Hm direction particle) as [Hm1 _]; [exact Hs | apply Hm1; exact E]. }
      destruct (Nat.lt_ge_cases direction (length (gate_contents s))) as [Hl | Hl].
      * rewrite vget_vset_same in Ec by exact Hl.
        rewrite <- Ec in Hin. apply list_remove_In in Hin. tauto.
      * unfold vget in Hin. rewrite nth_overflow in Hin by exact Hl. exact Hin.
  - rewrite !vget_vset_other by exact Hne. exact I.
Qed.

Lemma set_flag_shaped (direction particle : nat) (v : Z) (s : Simulation) :
  gates_shaped s -> gates_shaped (set_flag direction particle v s).
Proof.
  intros (A & C & Rw). unfold gates_shaped, set_flag. simpl.
  rewrite vset_length. split; [exact A |]. split; [exact C |].
  intros side Hs.
  destruct (vget_vset_cases [] (gate_arrays s) direction side
              (vset (vget [] (gate_arrays s) direction) particle v)) as [[<- E] | E];
    rewrite E; [rewrite vset_length |]; apply Rw; exact Hs.
Qed.

Lemma set_contents_shaped (direction : nat) (l : list nat) (s : Simulation) :
  gates_shaped s -> gates_shaped (set_contents direction l s).
Proof.
  intros (A & C & Rw). unfold gates_shaped, set_contents. simpl.
  rewrite vset_length. auto.
Qed.

Lemma check_gate_admission_flags (fuel : nat) (s s' : Simulation) (particle direction : nat) :
  flags_match_contents s -> gates_shaped s ->
  (direction < 2)%nat -> (particle < Z.to_nat (num_particles s))%nat ->
  INR (length (contents s direction)) <= vget 0 (gate_capacities s) direction - 1 ->
  check_gate_admission fuel s particle direction = Some s' ->
  flags_match_contents s' /\ gates_shaped s'.
Proof.
  intros I Sh Hd Hp Hroom H. unfold check_gate_admission in H.
  destruct (flag s direction particle =? 0)%Z; [| injection H as <-; auto].
  rewrite (ltb_false _ _ Hroom) in H. injection H as <-.
  split; [| apply set_flag_shaped, set_contents_shaped, Sh].
  destruct Sh as (A & C & Rw). specialize (Rw direction Hd).
  intros side q Hs. specialize (I side q Hs).
  unfold flag, contents, set_flag, set_contents, contents in *. simpl.
  destruct (Nat.eq_dec direction side) as [<- | Hne].
  - rewrite !vget_vset_same by lia. rewrite in_app_iff.
    destruct (Nat.eq_dec particle q) as [<- | Hq].
    + rewrite vget_vset_same by lia. split; [intros _; right; left; reflexivity | reflexivity].
    + rewrite vget_vset_other by exact Hq. rewrite I. simpl. tauto.
  - rewrite !vget_vset_other by exact Hne. exact I.
Qed.

(** X4.  The gate protocol without an explosion keeps (I4): after one pass
    of the gate loop of [update] for a gate that has room for one more, a
    particle is flagged for a gate exactly when it is one of its occupants,
    provided this held before. *)
Theorem gate_step_keeps_flags (fuel : nat) (s s' : Simulation) (particle direction : nat) :
  flags_match_contents s -> gates_shaped s ->
  (direction < 2)%nat -> (particle < Z.to_nat (num_particles s))%nat ->
  INR (length (contents s direction)) <= vget 0 (gate_capacities s) direction - 1 ->
  gate_step fuel s particle direction = Some s' ->
  flags_match_contents s' /\ gates_shaped s'.
Proof.
  intros I Sh Hd Hp Hroom H. unfold gate_step in H. destruct (_ && _).
  - eapply check_gate_admission_flags; eauto.
  - injection H as <-. split; [apply check_gate_departure_flags; exact I |].
    unfold check_gate_departure. destruct (_ =? _)%Z; [| exact Sh].
    apply set_flag_shaped. unfold erase_remove. apply set_contents_shaped, Sh.
Qed.

Lemma gate_step_admits_crossing : gate_step 0 crossing 0 LEFT = Some admitted.
Proof. ev_gate_step. same_configuration. Qed.

Lemma flags_match_crossing : flags_match_contents crossing.
Proof.
  intros side particle Hs.
  destruct side as [| [| side]]; [| | lia];
    destruct particle as [| particle]; cbv; split; intros H;
    try discriminate; try tauto; try (destruct particle; discriminate).
Qed.

Lemma gates_shaped_crossing : gates_shaped crossing.
Proof.
  split; [reflexivity |]. split; [reflexivity |].
  intros side Hs. destruct side as [| [| side]]; [reflexivity | reflexivity | lia].
Qed.

Lemma gate_step_keeps_flags_witness : flags_match_contents admitted /\ gates_shaped admitted.
Proof.
  apply (gate_step_keeps_flags 0 crossing admitted 0 LEFT).
  - exact flags_match_crossing.
  - exact gates_shaped_crossing.
  - unfold LEFT. lia.
  - simpl. lia.
  - run. change (INR 0) with 0. lra.
  - exact gate_step_admits_crossing.
Defined.

(** ** The scheduler on a sorted list *)

Lemma sort_insert_perm (key : nat -> R) (i : nat) (l : list nat) :
  Permutation (sort_insert key i l) (i :: l).
Proof.
  induction l as [| j l IH]; simpl; [reflexivity |].
  destruct (key i <? key j); [reflexivity |].
  rewrite IH. apply perm_swap.
Qed.

Lemma sort_insert_sorted (key : nat -> R) (i : nat) (l : list nat) :
  StronglySorted (no_later key) l -> StronglySorted (no_later key) (sort_insert key i l).
Proof.
  induction l as [| j l IH]; intros Hs; simpl.
  - constructor; constructor.
  - inversion Hs as [| ? ? Hs' Hall]; subst.
    destruct (key i <? key j) eqn:E.
    + apply ltb_true_iff in E. constructor; [exact Hs |].
      constructor; [unfold no_later; lra |].
      eapply Forall_impl; [| exact Hall]. unfold no_later. intros k Hk. lra.
    + apply ltb_false_iff in E. constructor; [apply IH; exact Hs' |].
      rewrite (sort_insert_perm key i l). constructor; [exact E | exact Hall].
Qed.

Lemma sort_fold_spec (key : nat -> R) (todo : list nat) :
  forall acc, StronglySorted (no_later key) acc ->
    StronglySorted (no_later key) (fold_left (fun acc i => sort_insert key i acc) todo acc)
    /\ Permutation (fold_left (fun acc i => sort_insert key i acc) todo acc) (acc ++ todo).
Proof.
  induction todo as [| i todo IH]; intros acc Hs; simpl.
  - rewrite app_nil_r. split; [exact Hs | reflexivity].
  - destruct (IH (sort_insert key i acc) (sort_insert_sorted key i acc Hs)) as [H1 H2].
    split; [exact H1 |]. rewrite H2, (sort_insert_perm key i acc).
    change (acc ++ i :: todo) with (acc ++ [i] ++ todo).
    rewrite app_assoc. apply Permutation_app_tail.
    change (i :: acc) with ([i] ++ acc). apply Permutation_app_comm.
Qed.

(** X5.  [sort_indices] leaves in [sorted_indices] every index below the
    length of the list exactly once, in the order of the planned impact
    times, and changes nothing else. *)
Theorem sort_indices_sorts (s : Simulation) :
  Permutation (sorted_indices (sort_indices s)) (seq 0 (length (sorted_indices s)))
  /\ StronglySorted (no_later (vget 0 (next_impact_times (sort_indices s))))
       (sorted_indices (sort_indices s))
  /\ set_sorted_indices (sorted_indices s) (sort_indices s) = s.
Proof.
  unfold sort_indices. cbv zeta. simpl.
  destruct (sort_fold_spec (vget 0 (next_impact_times s))
              (seq 0 (length (sorted_indices s))) [] (SSorted_nil _)) as [H1 H2].
  split; [exact H2 |]. split; [exact H1 |]. destruct s; reflexivity.
Qed.

Lemma find_first_spec (particle : nat) (indices : list nat) :
  match find_first particle indices with
  | Some i => nth_error indices i = Some particle
              /\ forall j, (j < i)%nat -> nth_error indices j <> Some particle
  | None => ~ In particle indices
  end.
Proof.
  induction indices as [| p rest IH]; simpl; [tauto |].
  destruct (Nat.eqb p particle) eqn:E.
  - apply Nat.eqb_eq in E. subst p. split; [reflexivity | intros j Hj; lia].
  - apply Nat.eqb_neq in E. destruct (find_first particle rest) as [i |].
    + destruct IH as [H1 H2]. split; [exact H1 |].
      intros [| j] Hj; simpl; [congruence | apply H2; lia].
    + intros [H | H]; [congruence | tauto].
Qed.

(** X6.  [find_index] returns the first position of the particle in
    [sorted_indices], and throws exactly when the particle is not in the
    list. *)
Theorem find_index_first (s : Simulation) (particle : nat) :
  (forall i, find_index s particle = inr i ->
     nth_error (sorted_indices s) i = Some particle
     /\ forall j, (j < i)%nat -> nth_error (sorted_indices s) j <> Some particle)
  /\ ((exists e, find_index s particle = inl e) <-> ~ In particle (sorted_indices s)).
Proof.
  unfold find_index. pose proof (find_first_spec particle (sorted_indices s)) as H.
  destruct (find_first particle (sorted_indices s)) as [i |].
  - destruct H as [H1 H2]. split.
    + intros i' E. injection E as <-. auto.
    + split; [intros [e E]; discriminate |].
      intros Hn. exfalso. apply Hn. eapply nth_error_In; eauto.
  - split; [intros i E; discriminate |]. split; [auto | eauto].
Qed.








(** ** The retraction angle *)

(** X8.  After a retraction the particle does not head for the mid-line:
    the horizontal component of its direction has the sign of its [x], for
    the reversed direction as for a random one (a draw is in [0, 1)). *)
Theorem retraction_heads_outward (s : Simulation) (particle : nat) :
  0 <= unif_real s (rng_state s) < 1 ->
  0 <= cos (fst (get_retraction_angle s particle)) * px s particle.
Proof.
  intros Hu. pose proof PI_pos as Hpi. unfold get_retraction_angle.
  destruct (explosion_direction_is_random s).
  - unfold draw. cbn [fst]. set (u := unif_real s (rng_state s)) in *.
    unfold sgn. cbn [T0 less SgnArg_double SgnArg_int].
    destruct (0 <? px s particle) eqn:E1; destruct (px s particle <? 0) eqn:E2;
      rewrite ?ltb_true_iff, ?ltb_false_iff in *; try lra; cbn [Z.b2z Z.sub Z.ltb Z.compare
        Z.opp Z.add Z.pos_sub Pos.compare Pos.compare_cont]; cbv beta iota.
    + assert (Hc : 0 <= cos ((u - 0.5) * PI + PI / 2 * 0)).
      { apply cos_ge_0; unfold PI in *; nra. }
      simpl IZR. nra.
    + assert (Hc : cos ((u - 0.5) * PI + PI / 2 * 2) <= 0).
      { apply cos_le_0; unfold PI in *; nra. }
      simpl IZR. nra.
    + assert (Hx : px s particle = 0) by lra. rewrite Hx. lra.
  - fold (px s particle). destruct (cos (dir s particle) * px s particle <? 0) eqn:E;
      rewrite ?ltb_true_iff, ?ltb_false_iff in E; cbn [fst].
    + unfold PI. rewrite neg_cos. lra.
    + exact E.
Qed.

Lemma retraction_heads_outward_witness :
  0 <= cos (fst (get_retraction_angle crossing 0)) * px crossing 0.
Proof. apply (retraction_heads_outward crossing 0). run. lra. Defined.

(** ** The geometry [setup] computes *)

(** X9.  [setup] places the centres symmetrically and lengthens the bridge
    until its four corners lie on the circles, in either reading of
    [circle_distance] (a bridge higher than the circles has no such
    corners). *)
Theorem setup_couples_bridge (s : Simulation) :
  bridge_height s ^ 2 / 4 <= circle_radius s ^ 2 ->
  left_center_x (setup s) = - right_center_x (setup s)
  /\ max_path (setup s)
     = circle_distance (setup s) + bridge_height (setup s) + circle_radius (setup s) * 4
  /\ on_circle (setup s) (right_center_x (setup s))
       (bridge_length (setup s) / 2, bridge_height (setup s) / 2)
  /\ on_circle (setup s) (left_center_x (setup s))
       (- bridge_length (setup s) / 2, bridge_height (setup s) / 2).
Proof.
  destruct s as [n lc rc r d h rnd flat chan lcx rcx mp bl caps t lw il rs nit it nx ny
                 x y dirs ndirs ga gc si mt tl ur st].
  cbv -[Rplus Rmult Rminus Ropp Rdiv Rinv IZR sqrt pow Rle].
  intros Hh.
  assert (Hq : sqrt (r ^ 2 - h ^ 2 / 4) * sqrt (r ^ 2 - h ^ 2 / 4) = r ^ 2 - h ^ 2 / 4)
    by (apply sqrt_sqrt; lra).
  set (q := sqrt (r ^ 2 - h ^ 2 / 4)) in *.
  destruct chan; cbv beta iota; (split; [lra |]); (split; [lra |]); split; nra.
Qed.

Lemma setup_couples_bridge_witness :
  let s := new_Simulation 3 1.2 1 0.5 1 1 false false (device []) in
  left_center_x (setup s) = - right_center_x (setup s)
  /\ max_path (setup s)
     = circle_distance (setup s) + bridge_height (setup s) + circle_radius (setup s) * 4
  /\ on_circle (setup s) (right_center_x (setup s))
       (bridge_length (setup s) / 2, bridge_height (setup s) / 2)
  /\ on_circle (setup s) (left_center_x (setup s))
       (- bridge_length (setup s) / 2, bridge_height (setup s) / 2).
Proof.
  apply (setup_couples_bridge (new_Simulation 3 1.2 1 0.5 1 1 false false (device []))).
  cbv -[Rplus Rmult Rminus Ropp Rdiv Rinv IZR pow Rle]. lra.
Defined.

(** ** The repair of [update] *)

(** X10.  After the repair of [update] the planned position of the particle
    is in the domain: it was, or it is the centre of the right urn. *)
Theorem repair_next_pos_in_domain (s : Simulation) (particle : nat) :
  0 < circle_radius s -> 0 <= circle_distance s ->
  right_center_x s = circle_distance s / 2 + circle_radius s ->
  (particle < length (next_x_pos s))%nat -> (particle < length (next_y_pos s))%nat ->
  is_in_domain (repair_next_pos s particle)
    (vget 0 (next_x_pos (repair_next_pos s particle)) particle)
    (vget 0 (next_y_pos (repair_next_pos s particle)) particle) = true.
Proof.
  intros HR HD Hr Hx Hy. unfold repair_next_pos.
  destruct (is_in_domain s _ _) eqn:E; cbn [negb]; [exact E |].
  cbv zeta. simpl next_x_pos. simpl next_y_pos.
  rewrite !vget_vset_same by (rewrite ?vset_length; assumption).
  rewrite sgn_vector_nonempty by (destruct (next_x_pos s); simpl in *; [lia | congruence]).
  unfold is_in_domain, is_in_bridge, is_in_circle. simpl.
  destruct (_ && _); [reflexivity |].
  rewrite (ltb_false _ 0) by lra. rewrite Hr. apply ltb_true. nra.
Qed.

Lemma repair_next_pos_in_domain_witness :
  is_in_domain (repair_next_pos stray 0)
    (vget 0 (next_x_pos (repair_next_pos stray 0)) 0)
    (vget 0 (next_y_pos (repair_next_pos stray 0)) 0) = true.
Proof.
  apply (repair_next_pos_in_domain stray 0); try (run; lra); simpl; lia.
Defined.

(** ** The mass spread *)

(** X11.  With every particle counted in one of the urns, the mass spread
    is between 0 and 1; it is 0 exactly at an even split and 1 exactly when
    one urn is empty. *)
Theorem mass_spread_range (s : Simulation) (count : Z) (counts : list Z) :
  (0 < num_particles s)%Z -> (0 <= count <= num_particles s)%Z ->
  total_left s = counts ++ [count] ->
  exists chi,
    get_mass_spread s = Some chi
    /\ 0 <= chi <= 1
    /\ (chi = 0 <-> (2 * count = num_particles s)%Z)
    /\ (chi = 1 <-> count = 0%Z \/ count = num_particles s).
Proof.
  intros Hn [Hl1 Hl2] Ht. unfold get_mass_spread. rewrite Ht, rev_app_distr. simpl.
  eexists. split; [reflexivity |].
  assert (Heven : (2 * count = num_particles s)%Z <-> 2 * IZR count = IZR (num_particles s)).
  { rewrite <- mult_IZR. split; [intros ->; reflexivity | apply eq_IZR]. }
  assert (Hzero : count = 0%Z <-> IZR count = 0).
  { split; [intros ->; reflexivity | apply eq_IZR]. }
  assert (Hall : count = num_particles s <-> IZR count = IZR (num_particles s)).
  { split; [intros ->; reflexivity | apply eq_IZR]. }
  rewrite Heven, Hzero, Hall. clear Heven Hzero Hall.
  apply IZR_lt in Hn. apply IZR_le in Hl1, Hl2.
  set (n := IZR (num_particles s)) in *. set (l := IZR count) in *.
  assert (Hd : forall x, x / n * n = x) by (intros x; field; lra).
  assert (Hc : forall x c, x / n = c <-> x = c * n).
  { intros x c. split; [intros <-; rewrite Hd; reflexivity | intros ->; field; lra]. }
  unfold fabs, Rabs. destruct (Rcase_abs (2 * l - n)) as [Hs | Hs];
    rewrite !Hc; (split; [| split; split; intros H; lra]);
    (split; [apply Rmult_le_pos; [lra | left; apply Rinv_0_lt_compat; exact Hn] |
             apply Rmult_le_reg_r with n; [exact Hn | rewrite Hd; lra]]).
Qed.

Lemma mass_spread_range_witness :
  exists chi,
    get_mass_spread three = Some chi
    /\ 0 <= chi <= 1
    /\ (chi = 0 <-> (2 * 2 = num_particles three)%Z)
    /\ (chi = 1 <-> 2%Z = 0%Z \/ 2%Z = num_particles three).
Proof.
  apply (mass_spread_range three 2 []); [simpl; lia | simpl; lia | reflexivity].
Defined.

(** ** What [start] leaves behind *)








(** ** Placed particles are in the domain *)

Lemma placed_in_domain (s : Simulation) (particle : nat) :
  0 <= circle_radius s -> 0 <= circle_distance s ->
  left_center_x s = - circle_distance s / 2 - circle_radius s ->
  right_center_x s = circle_distance s / 2 + circle_radius s ->
  placed s particle -> is_in_domain s (px s particle) (py s particle) = true.
Proof.
  intros HR HD Hl Hr (side & Hc & _ & Hb). unfold is_in_domain. rewrite Hb.
  pose proof (Rle_0_sqr (py s particle)) as Hy. unfold Rsqr in Hy.
  unfold is_in_circle in *. destruct (Nat.eqb side LEFT).
  - apply ltb_true_iff in Hc. rewrite Hl in Hc.
    assert (Hx : px s particle < 0).
    { destruct (Rlt_dec (px s particle) 0) as [H | H]; [exact H | exfalso].
      assert (H1 : circle_radius s
                   <= px s particle - (- circle_distance s / 2 - circle_radius s)) by lra.
      pose proof (Rmult_le_compat _ _ _ _ HR HR H1 H1). lra. }
    rewrite (ltb_true _ 0 Hx). apply ltb_true. rewrite Hl. exact Hc.
  - apply ltb_true_iff in Hc. rewrite Hr in Hc.
    assert (Hx : 0 < px s particle).
    { destruct (Rlt_dec 0 (px s particle)) as [H | H]; [exact H | exfalso].
      assert (H1 : circle_radius s
                   <= - (px s particle - (circle_distance s / 2 + circle_radius s))) by lra.
      pose proof (Rmult_le_compat _ _ _ _ HR HR H1 H1). lra. }
    rewrite (ltb_false _ 0) by lra. apply ltb_true. rewrite Hr. exact Hc.
Qed.

Lemma started_placed (fuel : nat) (s s' : Simulation) (left_ratio : R) :
  start fuel s left_ratio = Started s' ->
  geometry s' = geometry s
  /\ forall p, (p < Z.to_nat (num_particles s))%nat -> placed s' p.
Proof.
  unfold start. intros Hs.
  destruct (_ >=? _); [discriminate |].
  destruct (_ || _); [discriminate |].
  destruct (_ && _); [discriminate |].
  simpl num_particles in Hs.
  set (nl := Z.to_nat (trunc (left_ratio * IZR (num_particles s)))) in *.
  set (n := Z.to_nat (num_particles s)) in *.
  destruct (init_particles fuel _ (seq 0 nl) _ _ LEFT) as [s1 |] eqn:E1; [| discriminate].
  destruct (init_particles fuel s1 (seq nl (n - nl)) _ _ RIGHT) as [s2 |] eqn:E2;
    [| discriminate].
  injection Hs as <-.
  apply init_particles_placed in E1; [| apply seq_NoDup].
  apply init_particles_placed in E2; [| apply seq_NoDup].
  destruct E1 as (G1 & In1 & _). destruct E2 as (G2 & In2 & Out2).
  split; [transitivity (geometry s2); [reflexivity | rewrite G2, G1; reflexivity] |].
  intros p Hp. apply measure_sort_placed.
  destruct (Nat.lt_ge_cases p nl) as [Hlt | Hge].
  - apply Out2.
    + rewrite in_seq. lia.
    + apply In1. rewrite in_seq. lia.
  - apply In2. rewrite in_seq. lia.
Qed.

(** X13.  (I1) at the start: when [start] returns, on the geometry of
    [setup] for circles at a distance that is not negative, every particle
    is in the domain. *)
Theorem started_particles_in_domain (fuel : nat) (s s' : Simulation) (left_ratio : R) :
  0 <= circle_radius s -> 0 <= circle_distance s ->
  left_center_x s = - circle_distance s / 2 - circle_radius s ->
  right_center_x s = circle_distance s / 2 + circle_radius s ->
  start fuel s left_ratio = Started s' ->
  forall p, (p < Z.to_nat (num_particles s))%nat ->
    is_in_domain s' (px s' p) (py s' p) = true.
Proof.
  intros HR HD Hl Hr Hs p Hp. apply started_placed in Hs. destruct Hs as [G Hpl].
  unfold geometry in G. injection G as _ G1 G2 _ _ G5 G6 _ _ _ _ _.
  apply placed_in_domain; [rewrite G1; exact HR | rewrite G2; exact HD
                          | rewrite G5, G2, G1; exact Hl
                          | rewrite G6, G2, G1; exact Hr | apply Hpl; exact Hp].
Qed.

Lemma started_particles_in_domain_witness :
  is_in_domain three (px three 0) (py three 0) = true
  /\ is_in_domain three (px three 1) (py three 1) = true
  /\ is_in_domain three (px three 2) (py three 2) = true.
Proof.
  assert (H : forall p, (p < Z.to_nat (num_particles (urns draws1 3)))%nat ->
                is_in_domain three (px three p) (py three p) = true).
  { apply (started_particles_in_domain 1 (urns draws1 3) three (2 / 3));
      [run; lra | run; lra | run; lra | run; lra | exact three_started]. }
  repeat split; apply H; simpl; lia.
Defined.
